(** * go-logging: a leveled logger with a Sentry hook (log.go)

    A shallow embedding of package [logging] and the properties of its
    threshold table, header formatter, output path and reconfiguration
    operations.

    Conventions.
    - Go [string] and [[]byte] are both byte sequences: [string] here (a
      sequence of 8-bit [ascii]).
    - Go [int] is the 64-bit two's complement integer: a [Z] with the
      wrap-around written out where the code converts or decrements.
    - An [error] is represented by its [Error()] text. *)

From stdpp Require Import base numbers option strings gmap list.
From Stdlib Require Import Ascii ZArith Lia.

Local Open Scope Z_scope.

(** ** Machine integers *)

(** [uint(i)] for a 64-bit [int]. *)
Definition uint (i : Z) : Z := i mod 2 ^ 64.

(** The value a 64-bit [int] holds after an arithmetic result [i]. *)
Definition int_wrap (i : Z) : Z := (i + 2 ^ 63) mod 2 ^ 64 - 2 ^ 63.

(** [byte(u%10) + '0'], a byte addition. *)
Definition digit_byte (u : Z) : ascii :=
  ascii_of_N (Z.to_N ((u mod 10 + 48) mod 256)).

(** ** Severity levels *)

(** [type Level string] *)
Abbreviation Level := string (only parsing).

Definition DebugLvl : Level := "DEBUG".
Definition InfoLvl : Level := "INFO".
Definition WarnLvl : Level := "WARN".
Definition ErrorLvl : Level := "ERROR".

(** [func (l Level) includes(other Level) bool] *)
Definition includes (l other : Level) : bool :=
  if String.eqb l InfoLvl then
    negb (String.eqb other DebugLvl)
  else if String.eqb l WarnLvl then
    negb (String.eqb other DebugLvl) && negb (String.eqb other InfoLvl)
  else if String.eqb l ErrorLvl then
    negb (String.eqb other DebugLvl) && negb (String.eqb other InfoLvl)
      && negb (String.eqb other WarnLvl)
  else true.

(** ** Instants *)

(** A [time.Time], by the three observations log.go makes of it:
    [Date()], [Clock()] and [String()]. *)
Record Time := {
  year : Z; month : Z; day : Z;
  hour : Z; minute : Z; second : Z;
  Time_String : string
}.

(** ** itoa *)

(** The loop of [itoa]. [bp] is the index into [var b [32]byte]; the string
    [b] holds [b[bp:]], the part of the array filled so far.  Decrementing
    [bp] below 0 makes [b[bp]] an index out of range: [None]. *)
Fixpoint itoa_loop (bp : nat) (u wid : Z) (b : string) : option string :=
  if (0 <? u) || (0 <? wid) then
    match bp with
    | O => None
    | S bp' =>
        itoa_loop bp' (u / 10) (int_wrap (wid - 1)) (String (digit_byte u) b)
    end
  else Some b.

(** [func itoa(buf *[]byte, i int, wid int)]: the new contents of [*buf],
    or [None] when the loop runs off the array. *)
Definition itoa (buf : string) (i wid : Z) : option string :=
  let u := uint i in
  if (u =? 0) && (wid <=? 1) then Some (buf +:+ "0")
  else b ← itoa_loop 32 u wid ""; Some (buf +:+ b).

(** ** formatHeader *)

(** [func (l *Logger) formatHeader(buf *[]byte, now time.Time, file string,
    line int, level Level)]; the receiver is not used. *)
Definition formatHeader (buf : string) (now : Time) (file : string)
    (line : Z) (level : Level) : option string :=
  buf ← itoa buf (year now) 4;
  let buf := buf +:+ "-" in
  buf ← itoa buf (month now) 2;
  let buf := buf +:+ "-" in
  buf ← itoa buf (day now) 2;
  let buf := buf +:+ "T" in
  buf ← itoa buf (hour now) 2;
  let buf := buf +:+ ":" in
  buf ← itoa buf (minute now) 2;
  let buf := buf +:+ ":" in
  buf ← itoa buf (second now) 2;
  let buf := buf +:+ (" [" +:+ level +:+ "] ") in
  let buf := buf +:+ file in
  let buf := buf +:+ ":" in
  buf ← itoa buf line (-1);
  Some (buf +:+ ": ").

(** ** The world around a Logger *)

(** What the collaborators of a Logger see, in order.  The sink, the
    standard error stream and the raven client are external: the trace
    records each call made on them. *)
Inductive Event :=
  | EvWrite (sink : nat) (p : string)
      (** [out.Write(p)] on the sink with this identity *)
  | EvSinkClose (sink : nat)
      (** [closer.Close()] on the sink *)
  | EvStderr (p : string)
      (** [os.Stderr.Write(p)] *)
  | EvNewClient (dsn : string) (tags : gmap string string) (c : option nat)
      (** [raven.NewClient(dsn, tags)] and the client it returned *)
  | EvClientClose (c : nat)
      (** [Close()] on a [*raven.Client] *)
  | EvCapture (c : nat) (msg : string).
      (** a message handed to a client for reporting *)

(** The shared state: the trace, the set of mutexes currently held, the
    number of [time.Now()] calls so far, and the allocation counters of
    mutexes and raven clients. *)
Record World := {
  trace : list Event;
  held : gset nat;
  clock : nat;
  next_mutex : nat;
  next_client : nat
}.

Definition set_trace (t : list Event) (w : World) : World :=
  {| trace := t; held := held w; clock := clock w;
     next_mutex := next_mutex w; next_client := next_client w |}.
Definition set_held (h : gset nat) (w : World) : World :=
  {| trace := trace w; held := h; clock := clock w;
     next_mutex := next_mutex w; next_client := next_client w |}.
Definition set_clock (c : nat) (w : World) : World :=
  {| trace := trace w; held := held w; clock := c;
     next_mutex := next_mutex w; next_client := next_client w |}.
Definition set_next_mutex (n : nat) (w : World) : World :=
  {| trace := trace w; held := held w; clock := clock w;
     next_mutex := n; next_client := next_client w |}.
Definition set_next_client (n : nat) (w : World) : World :=
  {| trace := trace w; held := held w; clock := clock w;
     next_mutex := next_mutex w; next_client := n |}.

(** An [io.Writer] value: its identity, the error its [Write] returns for a
    payload given what happened before, and whether its dynamic type is
    also an [io.Closer]. *)
Record Writer := {
  writer_id : nat;
  Write_err : list Event → string → option string;
  is_Closer : bool
}.

(** The Go runtime and the libraries log.go calls, as far as it observes
    them. *)
Record Runtime := {
  Arg : Type;
    (** the values of [...interface{}] *)
  Sprint : list Arg → string;
    (** [fmt.Sprint(msg...)] *)
  Sprintf : string → list Arg → string;
    (** [fmt.Sprintf(format, msg...)] *)
  now_at : nat → Time;
    (** the result of the n-th call of [time.Now()] *)
  Caller : Z → string * Z * bool;
    (** [runtime.Caller(skip)]: file, line, ok *)
  NewClient_result : string → gmap string string → bool * option string
    (** [raven.NewClient(dsn, tags)]: whether a client comes back, and the
        error *)
}.

(** ** Computations *)

(** A call returns, panics, blocks forever on a mutex that is held
    (there is one goroutine), or ends the process with a fatal error of
    the Go runtime, which no deferred call sees and [recover] cannot
    stop. *)
Inductive Outcome (A : Type) :=
  | Ret (a : A) (w : World)
  | Panic (why : string) (w : World)
  | Blocked (w : World)
  | Fatal (why : string) (w : World).
Arguments Ret {A} a w.
Arguments Panic {A} why w.
Arguments Blocked {A} w.
Arguments Fatal {A} why w.

Definition M (A : Type) : Type := World → Outcome A.

Definition retM {A} (a : A) : M A := λ w, Ret a w.

Definition bindM {A B} (f : A → M B) (m : M A) : M B := λ w,
  match m w with
  | Ret a w' => f a w'
  | Panic why w' => Panic why w'
  | Blocked w' => Blocked w'
  | Fatal why w' => Fatal why w'
  end.

#[global] Instance M_ret : MRet M := @retM.
#[global] Instance M_bind : MBind M := @bindM.

Definition panic {A} (why : string) : M A := λ w, Panic why w.

(** [defer d] ahead of [body]: [d] runs when [body] returns and when it
    panics; a panic of [d] replaces the one under way.  After a fatal
    error nothing runs. *)
Definition defer {A} (d : M unit) (body : M A) : M A := λ w,
  match body w with
  | Ret a w' =>
      match d w' with
      | Ret _ w'' => Ret a w''
      | Panic why w'' => Panic why w''
      | Blocked w'' => Blocked w''
      | Fatal why w'' => Fatal why w''
      end
  | Panic why w' =>
      match d w' with
      | Ret _ w'' => Panic why w''
      | Panic why' w'' => Panic why' w''
      | Blocked w'' => Blocked w''
      | Fatal why' w'' => Fatal why' w''
      end
  | Blocked w' => Blocked w'
  | Fatal why w' => Fatal why w'
  end.

Definition world_of {A} (o : Outcome A) : World :=
  match o with Ret _ w | Panic _ w | Blocked w | Fatal _ w => w end.

Definition nil_dereference : string :=
  "invalid memory address or nil pointer dereference".

(** [Lock] of a [*sync.Mutex] *)
Definition Lock (m : nat) : M unit := λ w,
  if decide (m ∈ held w) then Blocked w
  else Ret () (set_held ({[m]} ∪ held w) w).

(** [Unlock] of a [*sync.Mutex].  Unlocking a mutex that is not locked is
    a fatal error of the runtime, not a panic. *)
Definition Unlock (m : nat) : M unit := λ w,
  if decide (m ∈ held w) then Ret () (set_held (held w ∖ {[m]}) w)
  else Fatal "fatal error: sync: unlock of unlocked mutex" w.

(** [new(sync.Mutex)] *)
Definition new_Mutex : M nat := λ w,
  Ret (next_mutex w) (set_next_mutex (S (next_mutex w)) w).

Definition emit (e : Event) : M unit := λ w,
  Ret () (set_trace (trace w ++ [e]) w).

(** ** The Logger *)

(** [type Logger struct].  [sentry] is a [*raven.Client], [None] for nil;
    [out] is an interface value, [None] for nil.  [lock] is the mutex
    [New] allocates: the Loggers described here are the ones [New] builds,
    whose [lock] is never nil. *)
Record Logger := {
  level : Level;
  out : option Writer;
  sentry : option nat;
  calldepth : Z;
  buf : string;
  lock : nat
}.

Definition set_level (x : Level) (l : Logger) : Logger :=
  {| level := x; out := out l; sentry := sentry l;
     calldepth := calldepth l; buf := buf l; lock := lock l |}.
Definition set_out (x : option Writer) (l : Logger) : Logger :=
  {| level := level l; out := x; sentry := sentry l;
     calldepth := calldepth l; buf := buf l; lock := lock l |}.
Definition set_sentry (x : option nat) (l : Logger) : Logger :=
  {| level := level l; out := out l; sentry := x;
     calldepth := calldepth l; buf := buf l; lock := lock l |}.
Definition set_calldepth (x : Z) (l : Logger) : Logger :=
  {| level := level l; out := out l; sentry := sentry l;
     calldepth := x; buf := buf l; lock := lock l |}.
Definition set_buf (x : string) (l : Logger) : Logger :=
  {| level := level l; out := out l; sentry := sentry l;
     calldepth := calldepth l; buf := x; lock := lock l |}.

(** The one-byte string ['\n']. *)
Definition LF : string := String "010" "".

(** [len(s) > 0 && s[len(s)-1] != '\n'] *)
Definition lacks_final_newline (s : string) : bool :=
  (0 <? String.length s)%nat &&
  match String.get (String.length s - 1) s with
  | Some c => negb (Ascii.eqb c "010")
  | None => false
  end.

Section WithRuntime.

Context (rt : Runtime).

(** [time.Now()] *)
Definition time_Now : M Time := λ w,
  Ret (now_at rt (clock w)) (set_clock (S (clock w)) w).

(** [w.Write(p)] on an [io.Writer]: the returned error. *)
Definition Writer_Write (o : Writer) (p : string) : M (option string) := λ w,
  Ret (Write_err o (trace w) p)
      (set_trace (trace w ++ [EvWrite (writer_id o) p]) w).

(** [raven.NewClient(dsn, tags)]: the client pointer and the error. *)
Definition raven_NewClient (dsn : string) (tags : gmap string string)
    : M (option nat * option string) := λ w,
  let '(made, err) := NewClient_result rt dsn tags in
  if made then
    let c := next_client w in
    Ret (Some c, err)
        (set_trace (trace w ++ [EvNewClient dsn tags (Some c)])
           (set_next_client (S c) w))
  else
    Ret (None, err) (set_trace (trace w ++ [EvNewClient dsn tags None]) w).

(** [client.Close()] of raven: it closes the client's queue, a field read
    through the receiver, so a nil receiver is a nil dereference. *)
Definition raven_Close (c : option nat) : M unit :=
  match c with
  | None => panic nil_dereference
  | Some c => emit (EvClientClose c)
  end.

(** [func New(level Level, out io.Writer, sentry string,
    sentryTags map[string]string) (Logger, error)] *)
Definition New (lvl : Level) (o : option Writer) (dsn : string)
    (tags : gmap string string) : M (Logger * option string) :=
  '(sentryClient, err) ←
    (if String.eqb dsn "" then mret (None, None)
     else raven_NewClient dsn tags);
  m ← new_Mutex;
  mret ({| level := lvl; out := o; sentry := sentryClient;
           calldepth := 0; buf := ""; lock := m |}, err).

(** [func (l Logger) Close()] *)
Definition Close (l : Logger) : M unit :=
  raven_Close (sentry l);;
  match out l with
  | Some o => if is_Closer o then emit (EvSinkClose (writer_id o)) else mret ()
  | None => mret ()
  end.

(** [func (l Logger) GetLevel() Level] *)
Definition GetLevel (l : Logger) : M Level :=
  Lock (lock l);;
  defer (Unlock (lock l)) (mret (level l)).

(** [func (l *Logger) SetLevel(lvl Level)]: the Logger behind the pointer
    after the call. *)
Definition SetLevel (l : Logger) (lvl : Level) : M Logger :=
  Lock (lock l);;
  defer (Unlock (lock l)) (mret (set_level lvl l)).

(** [func (l *Logger) SetOutput(out io.Writer)] *)
Definition SetOutput (l : Logger) (o : option Writer) : M Logger :=
  Lock (lock l);;
  defer (Unlock (lock l)) (mret (set_out o l)).

(** [func (l *Logger) SetCallDepth(depth int)] *)
Definition SetCallDepth (l : Logger) (depth : Z) : M Logger :=
  Lock (lock l);;
  defer (Unlock (lock l)) (mret (set_calldepth depth l)).

(** [func (l *Logger) SetSentry(dsn string, tags map[string]string) error]:
    the Logger behind the pointer after the call, and the error. *)
Definition SetSentry (l : Logger) (dsn : string) (tags : gmap string string)
    : M (Logger * option string) :=
  Lock (lock l);;
  defer (Unlock (lock l))
    ('(sentryClient, err) ← raven_NewClient dsn tags;
     match err with
     | Some e => mret (l, Some e)
     | None =>
         (match sentry l with
          | Some _ => raven_Close (sentry l)
          | None => mret ()
          end);;
         mret (set_sentry sentryClient l, None)
     end).

(** [func (l *Logger) output(calldepth int, s string) error]: the Logger
    behind the pointer after the call, and the error. *)
Definition output (l : Logger) (depth : Z) (s : string)
    : M (Logger * option string) :=
  now ← time_Now;
  Unlock (lock l);;
  let '(file, line, ok) := Caller rt depth in
  let '(file, line) := if ok then (file, line) else ("???", 0) in
  Lock (lock l);;
  let l := set_buf "" l in
  match formatHeader (buf l) now file line (level l) with
  | None => panic "index out of range"
  | Some b =>
      let l := set_buf b l in
      let l := set_buf (buf l +:+ s) l in
      let l :=
        if lacks_final_newline s then set_buf (buf l +:+ LF) l else l in
      match out l with
      | None => panic nil_dereference
      | Some o => err ← Writer_Write o (buf l); mret (l, err)
      end
  end.

(** [func (l Logger) log(msg ...interface{})] *)
Definition log (l : Logger) (msg : list (Arg rt)) : M unit :=
  '(_, err) ← output l (int_wrap (calldepth l + 2)) (Sprint rt msg);
  match err with
  | Some e =>
      now ← time_Now;
      emit (EvStderr (Time_String now +:+ " " +:+ e))
  | None => mret ()
  end.

(** [func (l Logger) logf(format string, msg ...interface{})] *)
Definition logf (l : Logger) (format : string) (msg : list (Arg rt))
    : M unit :=
  '(_, err) ← output l (int_wrap (calldepth l + 2)) (Sprintf rt format msg);
  match err with
  | Some e =>
      now ← time_Now;
      emit (EvStderr (Time_String now +:+ " " +:+ e))
  | None => mret ()
  end.

(** [func (l Logger) Debugf(format string, msg ...interface{})] *)
Definition Debugf (l : Logger) (format : string) (msg : list (Arg rt))
    : M unit :=
  Lock (lock l);;
  defer (Unlock (lock l))
    (match out l with
     | None => mret ()
     | Some _ =>
         if negb (includes (level l) DebugLvl) then mret ()
         else logf l format msg
     end).

(** [func (l Logger) Debug(msg ...interface{})] *)
Definition Debug (l : Logger) (msg : list (Arg rt)) : M unit :=
  Lock (lock l);;
  defer (Unlock (lock l))
    (match out l with
     | None => mret ()
     | Some _ =>
         if negb (includes (level l) DebugLvl) then mret ()
         else log l msg
     end).

(** [func (l Logger) Infof(format string, msg ...interface{})] *)
Definition Infof (l : Logger) (format : string) (msg : list (Arg rt))
    : M unit :=
  Lock (lock l);;
  defer (Unlock (lock l))
    (match out l with
     | None => mret ()
     | Some _ =>
         if negb (includes (level l) InfoLvl) then mret ()
         else logf l format msg
     end).

(** [func (l Logger) Info(msg ...interface{})] *)
Definition Info (l : Logger) (msg : list (Arg rt)) : M unit :=
  Lock (lock l);;
  defer (Unlock (lock l))
    (match out l with
     | None => mret ()
     | Some _ =>
         if negb (includes (level l) InfoLvl) then mret ()
         else log l msg
     end).

(** [func (l Logger) Warnf(format string, msg ...interface{})] *)
Definition Warnf (l : Logger) (format : string) (msg : list (Arg rt))
    : M unit :=
  Lock (lock l);;
  defer (Unlock (lock l))
    (match out l with
     | None => mret ()
     | Some _ =>
         if negb (includes (level l) WarnLvl) then mret ()
         else logf l format msg
     end).

(** [func (l Logger) Warn(msg ...interface{})] *)
Definition Warn (l : Logger) (msg : list (Arg rt)) : M unit :=
  Lock (lock l);;
  defer (Unlock (lock l))
    (match out l with
     | None => mret ()
     | Some _ =>
         if negb (includes (level l) WarnLvl) then mret ()
         else log l msg
     end).

(** [func (l Logger) Errorf(format string, msg ...interface{})] *)
Definition Errorf (l : Logger) (format : string) (msg : list (Arg rt))
    : M unit :=
  Lock (lock l);;
  defer (Unlock (lock l))
    (match out l with
     | None => mret ()
     | Some _ =>
         if negb (includes (level l) ErrorLvl) then mret ()
         else logf l format msg
     end).

(** [func (l Logger) Error(msg ...interface{})] *)
Definition Error (l : Logger) (msg : list (Arg rt)) : M unit :=
  Lock (lock l);;
  defer (Unlock (lock l))
    (match out l with
     | None => mret ()
     | Some _ =>
         if negb (includes (level l) ErrorLvl) then mret ()
         else log l msg
     end).

(** *** The eight log methods as one family *)

Inductive Call :=
  | CallDebugf (format : string) (msg : list (Arg rt))
  | CallDebug (msg : list (Arg rt))
  | CallInfof (format : string) (msg : list (Arg rt))
  | CallInfo (msg : list (Arg rt))
  | CallWarnf (format : string) (msg : list (Arg rt))
  | CallWarn (msg : list (Arg rt))
  | CallErrorf (format : string) (msg : list (Arg rt))
  | CallError (msg : list (Arg rt)).

Definition invoke (l : Logger) (c : Call) : M unit :=
  match c with
  | CallDebugf f msg => Debugf l f msg
  | CallDebug msg => Debug l msg
  | CallInfof f msg => Infof l f msg
  | CallInfo msg => Info l msg
  | CallWarnf f msg => Warnf l f msg
  | CallWarn msg => Warn l msg
  | CallErrorf f msg => Errorf l f msg
  | CallError msg => Error l msg
  end.

(** The severity a method tests against the threshold. *)
Definition severity (c : Call) : Level :=
  match c with
  | CallDebugf _ _ | CallDebug _ => DebugLvl
  | CallInfof _ _ | CallInfo _ => InfoLvl
  | CallWarnf _ _ | CallWarn _ => WarnLvl
  | CallErrorf _ _ | CallError _ => ErrorLvl
  end.

(** The message a method renders. *)
Definition rendered (c : Call) : string :=
  match c with
  | CallDebugf f msg | CallInfof f msg | CallWarnf f msg | CallErrorf f msg =>
      Sprintf rt f msg
  | CallDebug msg | CallInfo msg | CallWarn msg | CallError msg =>
      Sprint rt msg
  end.

End WithRuntime.

(** ** LogToStdout *)

(** [func LogToStdout(level Level, sentry string,
    sentryTags map[string]string) (Logger, error)].  [os_Stdout] is the
    value of the variable [os.Stdout], an [*os.File]. *)
Definition LogToStdout (rt : Runtime) (os_Stdout : Writer) (lvl : Level)
    (dsn : string) (tags : gmap string string) : M (Logger * option string) :=
  New rt lvl (Some os_Stdout) dsn tags.

(** ** Logger values whose mutex is nil *)

(** A value of type [Logger] as the struct is declared: [lock] is a
    pointer, nil in the zero value [Logger{}] and in no value that [New]
    builds. *)
Record LoggerStruct := {
  struct_level : Level;
  struct_out : option Writer;
  struct_sentry : option nat;
  struct_calldepth : Z;
  struct_buf : string;
  struct_lock : option nat
}.

(** [Logger{}] *)
Definition zero_Logger : LoggerStruct :=
  {| struct_level := ""; struct_out := None; struct_sentry := None;
     struct_calldepth := 0; struct_buf := ""; struct_lock := None |}.

Definition struct_of (l : Logger) : LoggerStruct :=
  {| struct_level := level l; struct_out := out l;
     struct_sentry := sentry l; struct_calldepth := calldepth l;
     struct_buf := buf l; struct_lock := Some (lock l) |}.

(** The Logger a struct value is when its mutex has been allocated. *)
Definition allocated (s : LoggerStruct) : option Logger :=
  match struct_lock s with
  | Some m =>
      Some {| level := struct_level s; out := struct_out s;
              sentry := struct_sentry s; calldepth := struct_calldepth s;
              buf := struct_buf s; lock := m |}
  | None => None
  end.

(** A log method called on a struct value.  Each of the eight methods
    opens with [l.lock.Lock()]: through a nil pointer that is a nil
    dereference, before anything else is looked at. *)
Definition call (rt : Runtime) (s : LoggerStruct) (c : Call rt) : M unit :=
  match allocated s with
  | Some l => invoke rt l c
  | None => panic nil_dereference
  end.

(** [func LogToFile(level Level, path string, sentry string,
    sentryTags map[string]string) (Logger, error)].  [os_OpenFile] is
    what [os.OpenFile(path, os.O_RDWR|os.O_CREATE|os.O_APPEND, 0644)]
    returns: the file, or the error. *)
Definition LogToFile (rt : Runtime) (os_OpenFile : string → Writer + string)
    (lvl : Level) (path dsn : string) (tags : gmap string string)
    : M (LoggerStruct * option string) :=
  match os_OpenFile path with
  | inr err => mret (zero_Logger, Some err)
  | inl f =>
      '(l, err) ← New rt lvl (Some f) dsn tags;
      mret (struct_of l, err)
  end.

(** ** The stack of a call *)

(** [Caller] answers for one stack.  The runtime in which a call is made
    from another place differs in these answers alone. *)
Definition on_stack (frames : Z → string * Z * bool) (rt : Runtime)
    : Runtime :=
  {| Arg := Arg rt; Sprint := Sprint rt; Sprintf := Sprintf rt;
     now_at := now_at rt; Caller := frames;
     NewClient_result := NewClient_result rt |}.

(** * Notions the properties are stated with *)

(** ** The threshold table as specified *)

(** The table as the specification words it: the row of the Error
    threshold lets through Error and nothing else. *)
Definition admits_as_specified (l e : Level) : bool :=
  if decide (l = InfoLvl) then bool_decide (e ≠ DebugLvl)
  else if decide (l = WarnLvl) then
    bool_decide (e ≠ DebugLvl ∧ e ≠ InfoLvl)
  else if decide (l = ErrorLvl) then bool_decide (e = ErrorLvl)
  else true.

(** ** Decimal renderings *)

(** The value of a decimal digit. *)
Definition digit_of (c : ascii) : option Z :=
  let n := Z.of_N (N_of_ascii c) in
  if (48 <=? n) && (n <=? 57) then Some (n - 48) else None.

(** The number a string of decimal digits denotes, most significant digit
    first; [None] when a byte is not a digit. *)
Fixpoint decimal_from (acc : Z) (s : string) : option Z :=
  match s with
  | EmptyString => Some acc
  | String c s' =>
      match digit_of c with
      | Some d => decimal_from (10 * acc + d) s'
      | None => None
      end
  end.

Definition decimal_value (s : string) : option Z := decimal_from 0 s.

Definition no_leading_zero (s : string) : Prop :=
  match s with
  | EmptyString => True
  | String c _ => c ≠ "0"%char
  end.

(** "[n] in decimal, zero-padded to width [w]": the digits of [n], on at
    least [w] bytes and at least one, with no zero in front beyond that
    width.  Width 1 is the minimum-width rendering. *)
Definition zero_padded_decimal (w : nat) (n : Z) (s : string) : Prop :=
  decimal_value s = Some n ∧
  (Nat.max 1 w ≤ String.length s)%nat ∧
  ((Nat.max 1 w < String.length s)%nat → no_leading_zero s).

(** A value an [int] can hold that is not negative. *)
Definition natural_int (i : Z) : Prop := 0 ≤ i < 2 ^ 63.

(** What the loop of [itoa] puts in front of [b]. *)
Definition loop_rendering (u wid : Z) (r : string) : Prop :=
  decimal_value r = Some u ∧
  wid ≤ Z.of_nat (String.length r) ∧
  (wid < Z.of_nat (String.length r) → no_leading_zero r) ∧
  (0 < u ∨ 0 < wid → r ≠ "").

(** The bytes one call of [itoa] appends. *)
Definition decimal (i wid : Z) : string := default "" (itoa "" i wid).

(** The widths for which the 32-byte array of [itoa] is large enough. *)
Definition fits_array (wid : Z) : Prop := - 2 ^ 62 + 32 ≤ wid ≤ 32.

(** ** Headers and lines *)

(** The date and time at the head of a header. *)
Definition timestamp (now : Time) : string :=
  decimal (year now) 4 +:+ "-" +:+ decimal (month now) 2 +:+ "-" +:+
  decimal (day now) 2 +:+ "T" +:+ decimal (hour now) 2 +:+ ":" +:+
  decimal (minute now) 2 +:+ ":" +:+ decimal (second now) 2.

(** The layout of a header: the timestamp, the level between brackets,
    the location, each number rendered by [decimal]. *)
Definition header_text (now : Time) (file : string) (line : Z) (lvl : Level)
    : string :=
  timestamp now +:+ " [" +:+ lvl +:+ "] " +:+ file +:+ ":" +:+
  decimal line (-1) +:+ ": ".

(** A string ends in a newline when its last byte is one. *)
Definition ends_in_newline (s : string) : Prop := ∃ t, s = t +:+ LF.

(** The line [output] composes for the message [s]. *)
Definition line_text (now : Time) (loc : string * Z) (lvl : Level)
    (s : string) : string :=
  (header_text now loc.1 loc.2 lvl +:+ s) +:+
  (if lacks_final_newline s then LF else "").

(** The world after [output] has written [line]. *)
Definition written (o : Writer) (line : string) (w : World) : World :=
  {| trace := trace w ++ [EvWrite (writer_id o) line];
     held := held w; clock := S (clock w);
     next_mutex := next_mutex w; next_client := next_client w |}.

Section Lines.

Context (rt : Runtime).

(** The file and line [output] puts in the header: the caller's, or the
    stand-ins when [runtime.Caller] reports failure. *)
Definition location (depth : Z) : string * Z :=
  let '(file, line, ok) := Caller rt depth in
  if ok then (file, line) else ("???", 0).

(** The line a call is written as by the Logger [l] in the world [w]. *)
Definition line_of (l : Logger) (c : Call rt) (w : World) : string :=
  line_text (now_at rt (clock w))
    (location (int_wrap (calldepth l + 2))) (level l) (rendered rt c).

(** What [log] and [logf] do with the rendered message. *)
Definition write_line (l : Logger) (s : string) : M unit :=
  '(_, err) ← output rt l (int_wrap (calldepth l + 2)) s;
  match err with
  | Some e =>
      now ← time_Now rt;
      emit (EvStderr (Time_String now +:+ " " +:+ e))
  | None => mret ()
  end.

(** The world after the error [e] of a write went to standard error. *)
Definition stderr_report (e : string) (w : World) : World :=
  {| trace :=
       trace w ++ [EvStderr (Time_String (now_at rt (clock w)) +:+ " " +:+ e)];
     held := held w; clock := S (clock w);
     next_mutex := next_mutex w; next_client := next_client w |}.

(** The world after a line went to the sink [o] and, had the write
    failed, its error to standard error. *)
Definition reported (o : Writer) (line : string) (w : World) : World :=
  match Write_err o (trace w) line with
  | None => written o line w
  | Some e => stderr_report e (written o line w)
  end.

End Lines.

(** ** Traces *)

(** The messages handed to raven clients, in order: the [EvCapture]
    events, which a call of one of the client's reporting methods would
    leave in the trace. *)
Definition forwarded (t : list Event) : list (nat * string) :=
  omap (λ e, match e with EvCapture k m => Some (k, m) | _ => None end) t.

(** The raven clients released, in order. *)
Definition released (t : list Event) : list nat :=
  omap (λ e, match e with EvClientClose k => Some k | _ => None end) t.

(** The events a log call on a Logger with the sink [o] may add to the
    trace: a write to that sink, a write to standard error. *)
Definition log_event (o : option Writer) (e : Event) : Prop :=
  match e, o with
  | EvWrite k _, Some o => k = writer_id o
  | EvStderr _, Some _ => True
  | _, _ => False
  end.

(** Every mutex held has been allocated. *)
Definition mutexes_allocated (w : World) : Prop :=
  ∀ m, m ∈ held w → (m < next_mutex w)%nat.

(** ** A concrete runtime, Logger and world *)

Definition sample_instant : Time :=
  {| year := 2024; month := 3; day := 5; hour := 7; minute := 8; second := 9;
     Time_String := "2024-03-05 07:08:09 +0000 UTC" |}.

(** Arguments are strings, which [fmt.Sprint] joins without spaces; the
    formats used have no verbs; the clock stands still; the caller is
    found at pkg/mod.go:42 up to depth 8; a DSN is accepted when it
    starts with https. *)
Definition sample_runtime : Runtime :=
  {| Arg := string;
     Sprint := λ msg, foldr String.append "" msg;
     Sprintf := λ format _, format;
     now_at := λ _, sample_instant;
     Caller := λ skip, if skip <=? 8 then ("pkg/mod.go", 42, true)
                       else ("", 0, false);
     NewClient_result := λ dsn _,
       if String.prefix "https" dsn then (true, None)
       else (true, Some "raven: dsn missing public key and/or private key")
  |}.

Definition sample_sink : Writer :=
  {| writer_id := 1%nat; Write_err := λ _ _, None; is_Closer := true |}.

Definition broken_sink : Writer :=
  {| writer_id := 2%nat;
     Write_err := λ _ _, Some "write: no space left on device";
     is_Closer := false |}.

Definition idle_world : World :=
  {| trace := []; held := ∅; clock := 0%nat; next_mutex := 1%nat;
     next_client := 1%nat |}.

(** An instant in the year before year 0. *)
Definition instant_before_year_0 : Time :=
  {| year := -1; month := 3; day := 5; hour := 7; minute := 8; second := 9;
     Time_String := "-0001-03-05 07:08:09 +0000 UTC" |}.

(** A file system in which nothing can be opened. *)
Definition no_file (path : string) : Writer + string :=
  inr ("open " +:+ path +:+ ": no such file or directory").

(** A Logger as [New] leaves it, with a sink and a raven client. *)
Definition sample_logger : Logger :=
  {| level := InfoLvl; out := Some sample_sink; sentry := Some 0%nat;
     calldepth := 0; buf := ""; lock := 0%nat |}.

(** * Properties *)

(** ** Strings *)

Lemma app_empty_l (s : string) : "" +:+ s = s.
Proof. reflexivity. Qed.

Lemma app_String (c : ascii) (s t : string) :
  String c s +:+ t = String c (s +:+ t).
Proof. reflexivity. Qed.

Lemma app_empty_r (s : string) : s +:+ "" = s.
Proof.
  induction s as [|c s IH]; [reflexivity|].
  rewrite app_String, IH. reflexivity.
Qed.

Lemma app_assoc_str (s t u : string) : (s +:+ t) +:+ u = s +:+ (t +:+ u).
Proof.
  induction s as [|c s IH]; [reflexivity|].
  rewrite !app_String, IH. reflexivity.
Qed.

Lemma length_app_str (s t : string) :
  String.length (s +:+ t) = (String.length s + String.length t)%nat.
Proof.
  induction s as [|c s IH]; [reflexivity|].
  rewrite app_String. simpl. rewrite IH. reflexivity.
Qed.

(** ** The threshold table *)

Lemma negb_eqb_true (s t : string) : negb (String.eqb s t) = true ↔ s ≠ t.
Proof. rewrite negb_true_iff. apply String.eqb_neq. Qed.

Lemma includes_Info (e : Level) : includes InfoLvl e = true ↔ e ≠ DebugLvl.
Proof. unfold includes. simpl. apply negb_eqb_true. Qed.

Lemma includes_Warn (e : Level) :
  includes WarnLvl e = true ↔ e ≠ DebugLvl ∧ e ≠ InfoLvl.
Proof.
  unfold includes. simpl.
  rewrite andb_true_iff, !negb_eqb_true. reflexivity.
Qed.

Lemma includes_Error (e : Level) :
  includes ErrorLvl e = true ↔ e ≠ DebugLvl ∧ e ≠ InfoLvl ∧ e ≠ WarnLvl.
Proof.
  unfold includes. simpl.
  rewrite !andb_true_iff, !negb_eqb_true. tauto.
Qed.

Lemma includes_other (l e : Level) :
  l ≠ InfoLvl → l ≠ WarnLvl → l ≠ ErrorLvl → includes l e = true.
Proof.
  intros HI HW HE. unfold includes.
  apply String.eqb_neq in HI, HW, HE. rewrite HI, HW, HE. reflexivity.
Qed.

(** C2, as stated, fails: [Level] is a string, and under the Error
    threshold an entry level that is none of the four names is let
    through, although it is not Error. *)
Lemma includes_Error_not_only_Error :
  includes ErrorLvl "FATAL" = true ∧ "FATAL" ≠ ErrorLvl ∧
  includes ErrorLvl "FATAL" ≠ admits_as_specified ErrorLvl "FATAL".
Proof.
  split; [reflexivity|]. split; [discriminate|].
  vm_compute. discriminate.
Qed.

(** C2, amended: [includes] is the exclusion table.  Info leaves out
    Debug; Warn leaves out Debug and Info; Error leaves out Debug, Info and
    Warn, which among the four named severities leaves Error alone; Debug
    and every unrecognised threshold let everything through. *)
Theorem includes_exclusion_table :
  (∀ e, includes InfoLvl e = true ↔ e ≠ DebugLvl) ∧
  (∀ e, includes WarnLvl e = true ↔ e ≠ DebugLvl ∧ e ≠ InfoLvl) ∧
  (∀ e, includes ErrorLvl e = true ↔
        e ≠ DebugLvl ∧ e ≠ InfoLvl ∧ e ≠ WarnLvl) ∧
  (∀ e, e ∈ [DebugLvl; InfoLvl; WarnLvl; ErrorLvl] →
        (includes ErrorLvl e = true ↔ e = ErrorLvl)) ∧
  (∀ e, includes DebugLvl e = true) ∧
  (∀ l e, l ≠ InfoLvl → l ≠ WarnLvl → l ≠ ErrorLvl → includes l e = true).
Proof.
  split; [exact includes_Info|].
  split; [exact includes_Warn|].
  split; [exact includes_Error|].
  split.
  - intros e He. rewrite includes_Error.
    rewrite !elem_of_cons, elem_of_nil in He.
    destruct He as [->|[->|[->|[->|[]]]]]; split;
      (reflexivity || discriminate || (intros [? [? ?]]; congruence) ||
       (intros _; repeat split; discriminate)).
  - split; [intros e; reflexivity|]. exact includes_other.
Qed.

Lemma includes_exclusion_table_witness :
  includes "VERBOSE" InfoLvl = true ∧
  (includes ErrorLvl WarnLvl = true ↔ WarnLvl = ErrorLvl).
Proof.
  pose proof includes_exclusion_table as (_ & _ & _ & H4 & _ & H6).
  split.
  - apply H6; discriminate.
  - apply H4. rewrite !elem_of_cons. right; right; left; reflexivity.
Defined.

(** ** Decimal rendering *)

Lemma digit_of_digit_byte (u : Z) : digit_of (digit_byte u) = Some (u mod 10).
Proof.
  unfold digit_of, digit_byte.
  assert (Hm : 0 ≤ u mod 10 < 10) by (apply Z.mod_pos_bound; lia).
  rewrite (Z.mod_small (u mod 10 + 48) 256) by lia.
  rewrite N_ascii_embedding by lia.
  rewrite Z2N.id by lia.
  replace (48 <=? u mod 10 + 48) with true by (symmetry; apply Z.leb_le; lia).
  replace (u mod 10 + 48 <=? 57) with true by (symmetry; apply Z.leb_le; lia).
  simpl. f_equal. lia.
Qed.

Lemma digit_byte_nonzero (u : Z) : u mod 10 ≠ 0 → digit_byte u ≠ "0"%char.
Proof.
  intros Hu Heq. pose proof (digit_of_digit_byte u) as H.
  rewrite Heq in H.
  assert (H0 : digit_of "0"%char = Some 0) by reflexivity.
  congruence.
Qed.

Lemma decimal_from_app (acc : Z) (s t : string) :
  decimal_from acc (s +:+ t) =
  match decimal_from acc s with
  | Some a => decimal_from a t
  | None => None
  end.
Proof.
  revert acc. induction s as [|c s IH]; intros acc; [reflexivity|].
  rewrite app_String. simpl. destruct (digit_of c); [apply IH|reflexivity].
Qed.

Lemma int_wrap_small (i : Z) : - 2 ^ 63 ≤ i < 2 ^ 63 → int_wrap i = i.
Proof.
  intros H. unfold int_wrap. rewrite Z.mod_small; lia.
Qed.

Lemma uint_small (i : Z) : 0 ≤ i < 2 ^ 63 → uint i = i.
Proof. intros H. unfold uint. apply Z.mod_small. lia. Qed.

Lemma itoa_loop_spec (bp : nat) : ∀ (u wid : Z) (b : string),
  (bp ≤ 32)%nat →
  0 ≤ u < 10 ^ Z.of_nat bp →
  - 2 ^ 62 + Z.of_nat bp ≤ wid ≤ Z.of_nat bp →
  ∃ r, itoa_loop bp u wid b = Some (r +:+ b) ∧ loop_rendering u wid r.
Proof.
  induction bp as [|bp IH]; intros u wid b Hbp Hu Hw.
  - simpl in Hu. assert (u = 0) by lia. subst u.
    exists "". simpl.
    replace (0 <? wid) with false by (symmetry; apply Z.ltb_ge; lia).
    simpl. split; [reflexivity|].
    repeat split; simpl; lia.
  - simpl itoa_loop.
    destruct ((0 <? u) || (0 <? wid)) eqn:Hc.
    + rewrite int_wrap_small by lia.
      assert (Hu' : 0 ≤ u / 10 < 10 ^ Z.of_nat bp).
      { split; [apply Z.div_pos; lia|].
        apply Z.div_lt_upper_bound; [lia|].
        rewrite Nat2Z.inj_succ, Z.pow_succ_r in Hu; lia. }
      destruct (IH (u / 10) (wid - 1) (String (digit_byte u) b))
        as (r & Hr & Hv & Hl & Hz & Hne); [lia|exact Hu'|lia|].
      exists (r +:+ String (digit_byte u) "").
      split; [rewrite Hr, app_assoc_str; reflexivity|].
      unfold loop_rendering, decimal_value.
      rewrite decimal_from_app, length_app_str.
      unfold decimal_value in Hv. rewrite Hv. simpl.
      rewrite digit_of_digit_byte.
      split; [f_equal; pose proof (Z.div_mod u 10); lia|].
      split; [lia|]. split.
      * intros Hlt. destruct r as [|c r].
        -- simpl. apply digit_byte_nonzero.
           simpl in Hv. injection Hv as Hv.
           assert (Hu10 : u < 10).
           { pose proof (Z.div_mod u 10). pose proof (Z.mod_pos_bound u 10).
             lia. }
           rewrite Z.mod_small by lia.
           simpl in Hlt. apply orb_true_iff in Hc as [Hc|Hc];
             [apply Z.ltb_lt in Hc|apply Z.ltb_lt in Hc]; lia.
        -- rewrite app_String. simpl. apply Hz. simpl. simpl in Hlt. lia.
      * intros _. destruct r; rewrite ?app_String; discriminate.
    + apply orb_false_iff in Hc as [Hc1 Hc2].
      apply Z.ltb_ge in Hc1, Hc2. assert (u = 0) by lia. subst u.
      exists "". split; [reflexivity|].
      repeat split; simpl; lia.
Qed.

Lemma uint_range (i : Z) : 0 ≤ uint i < 10 ^ Z.of_nat 32.
Proof.
  unfold uint. pose proof (Z.mod_pos_bound i (2 ^ 64)) as H.
  change (10 ^ Z.of_nat 32) with 100000000000000000000000000000000.
  change (2 ^ 64) with 18446744073709551616 in *. lia.
Qed.

(** [itoa] never runs off its array at the widths in use: it appends
    [decimal i wid] to the buffer. *)
Lemma itoa_decimal (b : string) (i wid : Z) :
  fits_array wid → itoa b i wid = Some (b +:+ decimal i wid).
Proof.
  intros Hw. unfold decimal, itoa.
  destruct ((uint i =? 0) && (wid <=? 1)); [reflexivity|].
  destruct (itoa_loop_spec 32 (uint i) wid "") as (r & Hr & _).
  - lia.
  - apply uint_range.
  - unfold fits_array in Hw. lia.
  - rewrite Hr. reflexivity.
Qed.

Lemma decimal_zero_padded (i wid : Z) :
  0 ≤ i < 2 ^ 63 → fits_array wid →
  zero_padded_decimal (Z.to_nat wid) i (decimal i wid).
Proof.
  intros Hi Hw. unfold decimal, itoa. rewrite (uint_small i Hi).
  destruct ((i =? 0) && (wid <=? 1)) eqn:Hc.
  - apply andb_true_iff in Hc as [Hc1 Hc2].
    apply Z.eqb_eq in Hc1. apply Z.leb_le in Hc2. subst i.
    split; [reflexivity|]. simpl. split; lia.
  - destruct (itoa_loop_spec 32 i wid "") as (r & Hr & Hv & Hl & Hz & Hne).
    + lia.
    + pose proof (uint_range i) as H. rewrite (uint_small i Hi) in H. exact H.
    + unfold fits_array in Hw. lia.
    + rewrite Hr. simpl. rewrite app_empty_r.
      assert (Hpos : 0 < i ∨ 1 < wid).
      { apply andb_false_iff in Hc as [Hc|Hc];
          [apply Z.eqb_neq in Hc|apply Z.leb_gt in Hc]; lia. }
      assert (Hr0 : r ≠ "") by (apply Hne; lia).
      split; [exact Hv|].
      clear Hr. destruct r as [|c r]; [congruence|].
      simpl in Hl, Hz |- *.
      split; [lia|]. intros Hlt. apply Hz. lia.
Qed.

Lemma fits_array_4 : fits_array 4.
Proof. unfold fits_array. lia. Qed.
Lemma fits_array_2 : fits_array 2.
Proof. unfold fits_array. lia. Qed.
Lemma fits_array_m1 : fits_array (-1).
Proof. unfold fits_array. lia. Qed.

(** [formatHeader] always succeeds and appends [header_text]. *)
Lemma formatHeader_appends (b : string) (now : Time) (file : string)
    (line : Z) (lvl : Level) :
  formatHeader b now file line lvl = Some (b +:+ header_text now file line lvl).
Proof.
  unfold formatHeader.
  rewrite (itoa_decimal _ _ 4 fits_array_4). cbn [mbind option_bind].
  repeat (rewrite (itoa_decimal _ _ 2 fits_array_2); cbn [mbind option_bind]).
  rewrite (itoa_decimal _ _ (-1) fits_array_m1). cbn [mbind option_bind].
  unfold header_text, timestamp. rewrite !app_assoc_str. reflexivity.
Qed.

(** ** The mutex *)

Lemma held_after_unlock (m : nat) (h : gset nat) :
  m ∉ h → ({[m]} ∪ h) ∖ {[m]} = h.
Proof.
  intros Hm. apply set_eq. intros x.
  rewrite elem_of_difference, elem_of_union, elem_of_singleton.
  split; [tauto|]. intros Hx. split; [tauto|]. intros ->. contradiction.
Qed.

Lemma held_after_relock (m : nat) (h : gset nat) :
  m ∈ h → {[m]} ∪ h ∖ {[m]} = h.
Proof.
  intros Hm. apply set_eq. intros x.
  rewrite elem_of_union, elem_of_difference, elem_of_singleton.
  destruct (decide (x = m)) as [->|Hx]; tauto.
Qed.

Lemma held_just_locked (m : nat) (h : gset nat) :
  m ∈ ({[m]} ∪ h : gset nat).
Proof. apply elem_of_union_l, elem_of_singleton. reflexivity. Qed.

Lemma free_just_unlocked (m : nat) (h : gset nat) : m ∉ h ∖ {[m]}.
Proof.
  rewrite elem_of_difference, elem_of_singleton. intros [_ H]. apply H.
  reflexivity.
Qed.

Lemma Lock_free (m : nat) (w : World) :
  m ∉ held w → Lock m w = Ret () (set_held ({[m]} ∪ held w) w).
Proof.
  intros Hm. unfold Lock. rewrite decide_False by exact Hm. reflexivity.
Qed.

Lemma Lock_held (m : nat) (w : World) : m ∈ held w → Lock m w = Blocked w.
Proof.
  intros Hm. unfold Lock. rewrite decide_True by exact Hm. reflexivity.
Qed.

Lemma Unlock_held (m : nat) (w : World) :
  m ∈ held w → Unlock m w = Ret () (set_held (held w ∖ {[m]}) w).
Proof.
  intros Hm. unfold Unlock. rewrite decide_True by exact Hm. reflexivity.
Qed.

(** A critical section: with the mutex free, [Lock; defer Unlock; body]
    runs [body] with the mutex held and gives it back, as long as
    [body] returns with the mutex held. *)
Lemma critical_section {A} (m : nat) (body : M A) (a : A) (w w' : World) :
  m ∉ held w →
  body (set_held ({[m]} ∪ held w) w) = Ret a w' →
  held w' = {[m]} ∪ held w →
  (Lock m;; defer (Unlock m) body) w = Ret a (set_held (held w) w').
Proof.
  intros Hfree Hbody Hheld.
  unfold mbind, M_bind, bindM. rewrite (Lock_free m w Hfree).
  unfold defer. rewrite Hbody.
  rewrite Unlock_held by (rewrite Hheld; apply held_just_locked).
  rewrite Hheld. rewrite held_after_unlock by exact Hfree.
  destruct w'; reflexivity.
Qed.

(** ** The output path *)

Section Behaviour.

Context (rt : Runtime).

(** [output], called with the mutex held on a Logger with a sink, returns:
    one write of one line, the write's error handed back. *)
Lemma output_writes (l : Logger) (o : Writer) (depth : Z) (s : string)
    (w : World) :
  out l = Some o → lock l ∈ held w →
  let line :=
    line_text (now_at rt (clock w)) (location rt depth) (level l) s in
  output rt l depth s w =
    Ret (set_buf line l, Write_err o (trace w) line) (written o line w).
Proof.
  intros Ho Hheld line. subst line. unfold output, location, line_text.
  unfold mbind, M_bind, bindM, time_Now.
  rewrite Unlock_held by exact Hheld.
  destruct (Caller rt depth) as [[file ln] ok].
  set (loc := if ok then (file, ln) else ("???", 0)).
  destruct loc as [file' ln'] eqn:Hloc.
  rewrite Lock_free by apply free_just_unlocked.
  rewrite formatHeader_appends.
  destruct (lacks_final_newline s);
    cbn [buf level out set_buf]; rewrite Ho;
    unfold Writer_Write, mret, M_ret, retM, written;
    cbn [trace held clock next_mutex next_client set_trace set_held
         set_clock];
    rewrite held_after_relock by exact Hheld;
    rewrite ?app_empty_r; reflexivity.
Qed.

(** ** The log methods *)

(** Every log method is the same critical section around [write_line],
    entered for its own severity. *)
Lemma invoke_shape (l : Logger) (c : Call rt) :
  invoke rt l c =
  (Lock (lock l);;
   defer (Unlock (lock l))
     (match out l with
      | None => mret ()
      | Some _ =>
          if negb (includes (level l) (severity rt c)) then mret ()
          else write_line rt l (rendered rt c)
      end)).
Proof. destruct c; reflexivity. Qed.

Lemma write_line_reports (l : Logger) (o : Writer) (s : string) (w : World) :
  out l = Some o → lock l ∈ held w →
  write_line rt l s w =
    Ret () (reported rt o
              (line_text (now_at rt (clock w))
                 (location rt (int_wrap (calldepth l + 2))) (level l) s) w).
Proof.
  intros Ho Hheld. unfold write_line, mbind, M_bind, bindM.
  rewrite (output_writes l o _ s w Ho Hheld). unfold reported.
  destruct (Write_err o (trace w) _) as [e|]; reflexivity.
Qed.

Lemma reported_held (o : Writer) (line : string) (w : World) :
  held (reported rt o line w) = held w.
Proof. unfold reported. destruct (Write_err o (trace w) line); reflexivity. Qed.

Lemma reported_set_held (o : Writer) (line : string) (h : gset nat)
    (w : World) :
  set_held (held w) (reported rt o line (set_held h w)) = reported rt o line w.
Proof.
  unfold reported. simpl.
  destruct (Write_err o (trace w) line); destruct w; reflexivity.
Qed.

(** A call on a Logger without a sink: nothing happens. *)
Lemma invoke_nil_sink (l : Logger) (c : Call rt) (w : World) :
  out l = None → lock l ∉ held w → invoke rt l c w = Ret () w.
Proof.
  intros Ho Hfree. rewrite invoke_shape, Ho.
  rewrite (critical_section (lock l) _ () w
             (set_held ({[lock l]} ∪ held w) w) Hfree);
    [|reflexivity|reflexivity].
  destruct w; reflexivity.
Qed.

(** A call below the threshold: nothing happens. *)
Lemma invoke_filtered (l : Logger) (c : Call rt) (w : World) :
  includes (level l) (severity rt c) = false → lock l ∉ held w →
  invoke rt l c w = Ret () w.
Proof.
  intros Hinc Hfree. rewrite invoke_shape, Hinc. simpl negb. cbv iota.
  rewrite (critical_section (lock l) _ () w
             (set_held ({[lock l]} ∪ held w) w) Hfree);
    [destruct w; reflexivity|destruct (out l); reflexivity|reflexivity].
Qed.

(** A call the threshold lets through, on a Logger with a sink: one line
    is written, a failed write is reported, the call returns and the mutex
    is free again. *)
Lemma invoke_admitted (l : Logger) (o : Writer) (c : Call rt) (w : World) :
  out l = Some o → includes (level l) (severity rt c) = true →
  lock l ∉ held w →
  invoke rt l c w = Ret () (reported rt o (line_of rt l c w) w).
Proof.
  intros Ho Hinc Hfree. rewrite invoke_shape, Ho, Hinc. simpl negb. cbv iota.
  rewrite (critical_section (lock l) _ () w
             (reported rt o (line_of rt l c w) (set_held ({[lock l]} ∪ held w) w))
             Hfree).
  - rewrite reported_set_held. reflexivity.
  - rewrite (write_line_reports l o _ _ Ho) by apply held_just_locked.
    reflexivity.
  - rewrite reported_held. reflexivity.
Qed.

End Behaviour.

Example sample_Warn :
  invoke sample_runtime sample_logger
    (CallWarn sample_runtime ["disk"; " full"]) idle_world
  = Ret () {| trace :=
                [EvWrite 1%nat
                   ("2024-03-05T07:08:09 [INFO] pkg/mod.go:42: disk full"
                    +:+ LF)];
              held := ∅; clock := 1%nat; next_mutex := 1%nat;
              next_client := 1%nat |}.
Proof. vm_compute. reflexivity. Qed.

(** ** Claims about the log methods *)

Lemma idle_world_free (m : nat) : m ∉ held idle_world.
Proof. simpl. apply not_elem_of_empty. Qed.

(** C4, as stated, fails on the zero value [Logger{}], which [LogToFile]
    returns when the file cannot be opened: its sink is nil and so is its
    mutex, and a log call on it panics in [l.lock.Lock()], before the test
    of the sink. *)
Lemma log_call_on_zero_Logger_panics :
  LogToFile sample_runtime no_file InfoLvl "/nowhere/app.log" "" ∅ idle_world
  = Ret (zero_Logger,
         Some "open /nowhere/app.log: no such file or directory")
        idle_world ∧
  struct_out zero_Logger = None ∧
  call sample_runtime zero_Logger (CallInfo sample_runtime ["up"]) idle_world
  = Panic nil_dereference idle_world.
Proof. split; [reflexivity|]. split; reflexivity. Qed.

(** C4, amended: on a Logger value whose mutex is allocated, as [New]
    leaves it, and free, and whose sink is nil, each of the eight log
    methods, at any threshold, returns at once: it does not panic, and the
    world (what was written, the clock, the mutex) is the one before the
    call.  The Logger itself is passed by value and cannot change. *)
Theorem log_without_sink_is_noop (rt : Runtime) (s : LoggerStruct) (m : nat)
    (c : Call rt) (w : World) :
  struct_out s = None → struct_lock s = Some m → m ∉ held w →
  call rt s c w = Ret () w.
Proof.
  intros Ho Hm Hfree. unfold call, allocated. rewrite Hm.
  apply invoke_nil_sink; [exact Ho|exact Hfree].
Qed.

Lemma log_without_sink_is_noop_witness :
  call sample_runtime (struct_of (set_out None sample_logger))
    (CallErrorf sample_runtime "lost %s" ["it"]) idle_world
  = Ret () idle_world.
Proof.
  apply (log_without_sink_is_noop sample_runtime
           (struct_of (set_out None sample_logger)) 0%nat).
  - reflexivity.
  - reflexivity.
  - apply idle_world_free.
Defined.

(** C7: when the sink's write fails in a log call, the call still returns
    normally, with nothing for its caller; after the write, one message
    goes to standard error, made of the time of a fresh [time.Now()], a
    space and the error's text, and the error is dropped.  The mutex is
    free again. *)
Theorem write_error_goes_to_stderr (rt : Runtime) (l : Logger) (o : Writer)
    (c : Call rt) (w : World) (e : string) :
  out l = Some o → includes (level l) (severity rt c) = true →
  lock l ∉ held w →
  Write_err o (trace w) (line_of rt l c w) = Some e →
  ∃ w', invoke rt l c w = Ret () w' ∧
        trace w' =
          trace w ++
          [EvWrite (writer_id o) (line_of rt l c w);
           EvStderr (Time_String (now_at rt (S (clock w))) +:+ " " +:+ e)] ∧
        held w' = held w.
Proof.
  intros Ho Hinc Hfree Herr.
  exists (reported rt o (line_of rt l c w) w).
  split; [apply invoke_admitted; assumption|].
  unfold reported. rewrite Herr. simpl. rewrite <- app_assoc.
  split; reflexivity.
Qed.

Lemma write_error_goes_to_stderr_witness :
  ∃ w', invoke sample_runtime (set_out (Some broken_sink) sample_logger)
          (CallError sample_runtime ["boom"]) idle_world = Ret () w' ∧
        trace w' =
          [EvWrite 2%nat
             ("2024-03-05T07:08:09 [INFO] pkg/mod.go:42: boom" +:+ LF);
           EvStderr
             "2024-03-05 07:08:09 +0000 UTC write: no space left on device"] ∧
        held w' = ∅.
Proof.
  apply (write_error_goes_to_stderr sample_runtime
           (set_out (Some broken_sink) sample_logger) broken_sink
           (CallError sample_runtime ["boom"]) idle_world
           "write: no space left on device").
  - reflexivity.
  - reflexivity.
  - apply idle_world_free.
  - reflexivity.
Defined.

Lemma location_not_ok (rt : Runtime) (depth : Z) :
  (Caller rt depth).2 = false → location rt depth = ("???", 0).
Proof.
  unfold location. destruct (Caller rt depth) as [[file line] ok].
  simpl. intros ->. reflexivity.
Qed.

(** C8: when [runtime.Caller] reports failure in a call the threshold lets
    through, the line written carries the file name "???" and the line
    number 0 where the location goes, and the call goes on as any other:
    it returns, and when the write succeeds that one line is all that
    happens, with nothing sent to standard error. *)
Theorem caller_failure_writes_placeholders (rt : Runtime) (l : Logger)
    (o : Writer) (c : Call rt) (w : World) :
  out l = Some o → includes (level l) (severity rt c) = true →
  lock l ∉ held w →
  (Caller rt (int_wrap (calldepth l + 2))).2 = false →
  let line :=
    (timestamp (now_at rt (clock w)) +:+ " [" +:+ level l +:+ "] " +:+
     "???:0: " +:+ rendered rt c) +:+
    (if lacks_final_newline (rendered rt c) then LF else "") in
  ∃ w', invoke rt l c w = Ret () w' ∧
        held w' = held w ∧
        (∃ rest, trace w' = trace w ++ EvWrite (writer_id o) line :: rest) ∧
        (Write_err o (trace w) line = None →
         trace w' = trace w ++ [EvWrite (writer_id o) line]).
Proof.
  intros Ho Hinc Hfree Hcaller line.
  assert (Hline : line_of rt l c w = line).
  { unfold line_of, line_text. rewrite (location_not_ok rt _ Hcaller).
    simpl fst. simpl snd. unfold header_text.
    subst line. rewrite !app_assoc_str. reflexivity. }
  exists (reported rt o line w). rewrite <- Hline.
  split; [apply invoke_admitted; assumption|].
  split; [apply reported_held|].
  unfold reported.
  destruct (Write_err o (trace w) (line_of rt l c w)) as [e|]; simpl.
  - split; [|discriminate]. eexists. rewrite <- app_assoc. reflexivity.
  - split; [exists []; reflexivity|reflexivity].
Qed.

Lemma caller_failure_writes_placeholders_witness :
  ∃ w', invoke sample_runtime (set_calldepth 7 sample_logger)
          (CallInfo sample_runtime ["up"]) idle_world = Ret () w' ∧
        held w' = ∅ ∧
        (∃ rest, trace w' =
           EvWrite 1%nat ("2024-03-05T07:08:09 [INFO] ???:0: up" +:+ LF)
           :: rest) ∧
        (@None string = None →
         trace w' =
           [EvWrite 1%nat ("2024-03-05T07:08:09 [INFO] ???:0: up" +:+ LF)]).
Proof.
  apply (caller_failure_writes_placeholders sample_runtime
           (set_calldepth 7 sample_logger) sample_sink
           (CallInfo sample_runtime ["up"]) idle_world).
  - reflexivity.
  - reflexivity.
  - apply idle_world_free.
  - reflexivity.
Defined.

Lemma forwarded_app (t u : list Event) :
  forwarded (t ++ u) = forwarded t ++ forwarded u.
Proof. apply omap_app. Qed.

Lemma forwarded_reported (rt : Runtime) (o : Writer) (line : string)
    (w : World) :
  forwarded (trace (reported rt o line w)) = forwarded (trace w).
Proof.
  unfold reported. destruct (Write_err o (trace w) line); simpl;
    rewrite !forwarded_app; simpl; rewrite ?app_nil_r; reflexivity.
Qed.

Lemma invoke_blocked (rt : Runtime) (l : Logger) (c : Call rt) (w : World) :
  lock l ∈ held w → invoke rt l c w = Blocked w.
Proof.
  intros Hheld. rewrite invoke_shape. unfold mbind, M_bind, bindM.
  rewrite Lock_held by exact Hheld. reflexivity.
Qed.

(** No log method, at any severity and however it ends, hands a message
    to a raven client. *)
Lemma invoke_forwards_nothing (rt : Runtime) (l : Logger) (c : Call rt)
    (w : World) :
  forwarded (trace (world_of (invoke rt l c w))) = forwarded (trace w).
Proof.
  destruct (decide (lock l ∈ held w)) as [Hheld|Hfree].
  { rewrite invoke_blocked by exact Hheld. reflexivity. }
  destruct (out l) as [o|] eqn:Ho.
  - destruct (includes (level l) (severity rt c)) eqn:Hinc.
    + rewrite (invoke_admitted rt l o c w Ho Hinc Hfree).
      apply forwarded_reported.
    + rewrite (invoke_filtered rt l c w Hinc Hfree). reflexivity.
  - rewrite (invoke_nil_sink rt l c w Ho Hfree). reflexivity.
Qed.

(** C1, on the code: a Warn, Warnf, Error or Errorf call that the
    threshold lets through, on a Logger with a sink and a raven client,
    returns having handed the client nothing: the messages forwarded
    are those forwarded before the call.  No path of [log], [logf] or
    [output] reaches the client. *)
Theorem Warn_and_Error_forward_nothing (rt : Runtime) (l : Logger)
    (o : Writer) (k : nat) (c : Call rt) (w : World) :
  out l = Some o → sentry l = Some k →
  severity rt c = WarnLvl ∨ severity rt c = ErrorLvl →
  includes (level l) (severity rt c) = true →
  lock l ∉ held w →
  ∃ w', invoke rt l c w = Ret () w' ∧
        forwarded (trace w') = forwarded (trace w).
Proof.
  intros Ho _ _ Hinc Hfree.
  exists (reported rt o (line_of rt l c w) w).
  split; [apply invoke_admitted; assumption|apply forwarded_reported].
Qed.

Lemma Warn_and_Error_forward_nothing_witness :
  ∃ w', invoke sample_runtime sample_logger
          (CallWarn sample_runtime ["disk"; " full"]) idle_world = Ret () w' ∧
        forwarded (trace w') = [].
Proof.
  apply (Warn_and_Error_forward_nothing sample_runtime sample_logger
           sample_sink 0%nat (CallWarn sample_runtime ["disk"; " full"])
           idle_world).
  - reflexivity.
  - reflexivity.
  - left. reflexivity.
  - reflexivity.
  - apply idle_world_free.
Defined.

(** ** Claims about configuration and release *)

Lemma critical_section_pure {A} (m : nat) (a : A) (w : World) :
  m ∉ held w → (Lock m;; defer (Unlock m) (mret a)) w = Ret a w.
Proof.
  intros Hfree.
  rewrite (critical_section m _ a w (set_held ({[m]} ∪ held w) w) Hfree);
    [destruct w; reflexivity|reflexivity|reflexivity].
Qed.

(** C10: [SetLevel x] leaves a Logger whose [GetLevel] is [x], for the
    four named levels and for any other string; it changes the level and
    no other field, and the world not at all. *)
Theorem SetLevel_then_GetLevel (l : Logger) (x : string) (w : World) :
  lock l ∉ held w →
  ∃ l', SetLevel l x w = Ret l' w ∧
        GetLevel l' w = Ret x w ∧
        out l' = out l ∧ sentry l' = sentry l ∧
        calldepth l' = calldepth l ∧ buf l' = buf l ∧ lock l' = lock l.
Proof.
  intros Hfree. exists (set_level x l).
  split; [apply critical_section_pure; exact Hfree|].
  split; [apply (critical_section_pure (lock l) x w Hfree)|].
  repeat split; reflexivity.
Qed.

Lemma SetLevel_then_GetLevel_witness :
  ∃ l', SetLevel sample_logger "TRACE" idle_world = Ret l' idle_world ∧
        GetLevel l' idle_world = Ret "TRACE" idle_world ∧
        out l' = Some sample_sink ∧ sentry l' = Some 0%nat ∧
        calldepth l' = 0 ∧ buf l' = "" ∧ lock l' = 0%nat.
Proof.
  apply (SetLevel_then_GetLevel sample_logger "TRACE" idle_world).
  apply idle_world_free.
Defined.

(** [Close] on a Logger with a raven client: the client is released, then
    the sink when it is an [io.Closer]. *)
Lemma Close_with_client (l : Logger) (k : nat) (w : World) :
  sentry l = Some k →
  Close l w =
    Ret () (set_trace
              (trace w ++ EvClientClose k ::
                 match out l with
                 | Some o =>
                     if is_Closer o then [EvSinkClose (writer_id o)] else []
                 | None => []
                 end) w).
Proof.
  intros Hk. unfold Close, mbind, M_bind, bindM, raven_Close. rewrite Hk.
  unfold emit at 1. destruct (out l) as [o|]; [destruct (is_Closer o)|];
    unfold emit, mret, M_ret, retM, set_trace; simpl;
    rewrite <- ?app_assoc; reflexivity.
Qed.

Lemma Close_without_client (l : Logger) (w : World) :
  sentry l = None → Close l w = Panic nil_dereference w.
Proof.
  intros Hk. unfold Close, mbind, M_bind, bindM, raven_Close. rewrite Hk.
  reflexivity.
Qed.

(** C9, on the code: a Logger that [New] builds without a DSN has no
    raven client, and [Close] on it calls the client's [Close] through the
    nil pointer all the same: the call panics, before the sink is looked
    at.  [SetSentry] tests the pointer before the same call. *)
Theorem Close_after_New_without_dsn_panics (rt : Runtime) (lvl : string)
    (o : option Writer) (tags : gmap string string) (w : World) :
  (New rt lvl o "" tags ≫= λ r, Close r.1) w =
  Panic nil_dereference (set_next_mutex (S (next_mutex w)) w).
Proof. reflexivity. Qed.



(** ** The final newline *)

Lemma string_snoc_cases (s : string) :
  s = "" ∨ ∃ t c, s = t +:+ String c "".
Proof.
  induction s as [|a s IH]; [left; reflexivity|right].
  destruct IH as [->|(t & c & ->)].
  - exists "", a. reflexivity.
  - exists (String a t), c. reflexivity.
Qed.

Lemma snoc_inj (t t' : string) (c c' : ascii) :
  t +:+ String c "" = t' +:+ String c' "" → t = t' ∧ c = c'.
Proof.
  revert t'. induction t as [|a t IH]; intros [|a' t'] H.
  - injection H as ->. split; reflexivity.
  - rewrite app_String in H. injection H as -> H.
    destruct t'; discriminate.
  - rewrite app_String in H. injection H as -> H.
    destruct t; discriminate.
  - rewrite !app_String in H. injection H as -> H.
    destruct (IH t' H) as [-> ->]. split; reflexivity.
Qed.

Lemma get_last (t : string) (c : ascii) :
  String.get (String.length (t +:+ String c "") - 1) (t +:+ String c "")
  = Some c.
Proof.
  induction t as [|a t IH]; [reflexivity|].
  rewrite app_String. simpl String.length.
  rewrite length_app_str in *. simpl String.length in *.
  replace (S (String.length t + 1) - 1)%nat with (S (String.length t))
    by lia.
  simpl String.get.
  replace (String.length t + 1 - 1)%nat with (String.length t) in IH by lia.
  exact IH.
Qed.

Lemma not_ends_in_newline_empty : ¬ ends_in_newline "".
Proof. intros [t Ht]. destruct t; discriminate. Qed.

(** The test of [output] holds exactly of the non-empty strings that do
    not end in a newline. *)
Lemma lacks_final_newline_spec (s : string) :
  lacks_final_newline s = true ↔ s ≠ "" ∧ ¬ ends_in_newline s.
Proof.
  unfold lacks_final_newline.
  destruct (string_snoc_cases s) as [->|(t & c & ->)].
  - simpl. split; [discriminate|intros [H _]; congruence].
  - rewrite get_last, length_app_str. simpl String.length.
    replace (0 <? String.length t + 1)%nat with true
      by (symmetry; apply Nat.ltb_lt; lia).
    simpl andb. rewrite negb_true_iff.
    split.
    + intros Hc. split; [destruct t; discriminate|].
      intros [t' Ht']. apply snoc_inj in Ht' as [_ ->].
      rewrite Ascii.eqb_refl in Hc. discriminate.
    + intros [_ Hn]. apply Ascii.eqb_neq. intros ->.
      apply Hn. exists t. reflexivity.
Qed.

(** C3, as stated, fails on the empty message: it does not end in a
    newline, and the line written for it ([Info()] with no operand renders
    the empty string) is the header alone, with no newline after it. *)
Lemma empty_message_gets_no_newline :
  ¬ ends_in_newline "" ∧
  rendered sample_runtime (CallInfo sample_runtime []) = "" ∧
  invoke sample_runtime sample_logger (CallInfo sample_runtime []) idle_world
  = Ret () {| trace :=
                [EvWrite 1%nat "2024-03-05T07:08:09 [INFO] pkg/mod.go:42: "];
              held := ∅; clock := 1%nat; next_mutex := 1%nat;
              next_client := 1%nat |} ∧
  "2024-03-05T07:08:09 [INFO] pkg/mod.go:42: " ≠
  "2024-03-05T07:08:09 [INFO] pkg/mod.go:42: " +:+ "" +:+ LF.
Proof.
  split; [exact not_ends_in_newline_empty|].
  split; [reflexivity|].
  split; [vm_compute; reflexivity|discriminate].
Qed.

(** C3, amended: [output], on its way to the sink, writes the header,
    the message, and then one newline when the message is not empty and
    does not end in a newline, nothing when the message ends in a newline
    or is empty. *)
Theorem output_final_newline (rt : Runtime) (l : Logger) (o : Writer)
    (depth : Z) (s : string) (w : World) :
  out l = Some o → lock l ∈ held w →
  ∃ tail l' err w',
    output rt l depth s w = Ret (l', err) w' ∧
    trace w' =
      trace w ++
      [EvWrite (writer_id o)
         ((header_text (now_at rt (clock w)) (location rt depth).1
             (location rt depth).2 (level l) +:+ s) +:+ tail)] ∧
    (s ≠ "" → ¬ ends_in_newline s → tail = LF) ∧
    (s = "" ∨ ends_in_newline s → tail = "").
Proof.
  intros Ho Hheld.
  exists (if lacks_final_newline s then LF else "").
  eexists _, _, _. split; [apply (output_writes rt l o depth s w Ho Hheld)|].
  split; [reflexivity|].
  pose proof (lacks_final_newline_spec s) as Hspec.
  destruct (lacks_final_newline s).
  - split; [reflexivity|]. intros Hs.
    destruct Hspec as [Hspec _]. destruct (Hspec eq_refl) as [H1 H2].
    destruct Hs as [Hs|Hs]; contradiction.
  - split; [|reflexivity]. intros H1 H2.
    destruct Hspec as [_ Hspec]. discriminate (Hspec (conj H1 H2)).
Qed.

Lemma output_final_newline_witness :
  ∃ tail l' err w',
    output sample_runtime sample_logger 2 "ready"
      (set_held {[0%nat]} idle_world) = Ret (l', err) w' ∧
    trace w' =
      [EvWrite 1%nat
         (("2024-03-05T07:08:09 [INFO] pkg/mod.go:42: " +:+ "ready") +:+ tail)] ∧
    ("ready" ≠ "" → ¬ ends_in_newline "ready" → tail = LF) ∧
    ("ready" = "" ∨ ends_in_newline "ready" → tail = "").
Proof.
  apply (output_final_newline sample_runtime sample_logger sample_sink 2
           "ready" (set_held {[0%nat]} idle_world)).
  - reflexivity.
  - simpl. apply elem_of_singleton. reflexivity.
Defined.

(** ** The header *)

Example LF_is_byte_10 : LF = String (ascii_of_nat 10) "".
Proof. reflexivity. Qed.

(** The rendering is determined. *)

Lemma digit_of_range (c : ascii) (d : Z) : digit_of c = Some d → 0 ≤ d ≤ 9.
Proof.
  unfold digit_of.
  destruct ((48 <=? Z.of_N (N_of_ascii c)) && (Z.of_N (N_of_ascii c) <=? 57))
    eqn:H; [|discriminate].
  apply andb_true_iff in H as [H1 H2].
  apply Z.leb_le in H1, H2. intros [= <-]. lia.
Qed.

Lemma digit_of_inj (c c' : ascii) (d : Z) :
  digit_of c = Some d → digit_of c' = Some d → c = c'.
Proof.
  unfold digit_of.
  destruct ((48 <=? Z.of_N (N_of_ascii c)) && _); [|discriminate].
  destruct ((48 <=? Z.of_N (N_of_ascii c')) && _); [|discriminate].
  intros [= <-] [= H].
  rewrite <- (ascii_N_embedding c), <- (ascii_N_embedding c').
  f_equal. lia.
Qed.

Lemma decimal_from_bounds (s : string) : ∀ (acc v : Z),
  decimal_from acc s = Some v →
  ∃ r, 0 ≤ r < 10 ^ Z.of_nat (String.length s) ∧
       v = acc * 10 ^ Z.of_nat (String.length s) + r.
Proof.
  induction s as [|c s IH]; intros acc v H.
  - injection H as <-. exists 0. simpl. lia.
  - simpl in H. destruct (digit_of c) as [d|] eqn:Hd; [|discriminate].
    apply digit_of_range in Hd.
    destruct (IH _ _ H) as (r & Hr & ->).
    simpl String.length. rewrite Nat2Z.inj_succ, Z.pow_succ_r by lia.
    set (p := 10 ^ Z.of_nat (String.length s)) in *.
    exists (d * p + r). split; [nia|ring].
Qed.

Lemma decimal_from_inj (s : string) : ∀ (s' : string) (acc v : Z),
  String.length s = String.length s' →
  decimal_from acc s = Some v → decimal_from acc s' = Some v → s = s'.
Proof.
  induction s as [|c s IH]; intros [|c' s'] acc v Hlen H H';
    try discriminate; [reflexivity|].
  simpl in H, H'. injection Hlen as Hlen.
  destruct (digit_of c) as [d|] eqn:Hd; [|discriminate].
  destruct (digit_of c') as [d'|] eqn:Hd'; [|discriminate].
  destruct (decimal_from_bounds _ _ _ H) as (r & Hr & Hv).
  destruct (decimal_from_bounds _ _ _ H') as (r' & Hr' & Hv').
  rewrite <- Hlen in Hr', Hv'.
  set (p := 10 ^ Z.of_nat (String.length s)) in *.
  assert (d = d') by nia. subst d'.
  rewrite (digit_of_inj c c' d Hd Hd'). f_equal.
  exact (IH s' _ v Hlen H H').
Qed.

Lemma leading_zero_of_small (c : ascii) (s : string) (v : Z) :
  decimal_value (String c s) = Some v →
  v < 10 ^ Z.of_nat (String.length s) → c = "0"%char.
Proof.
  unfold decimal_value. simpl. intros H Hv.
  destruct (digit_of c) as [d|] eqn:Hd; [|discriminate].
  destruct (decimal_from_bounds _ _ _ H) as (r & Hr & ->).
  pose proof (digit_of_range c d Hd).
  set (p := 10 ^ Z.of_nat (String.length s)) in *.
  assert (d = 0) by nia. subst d.
  apply (digit_of_inj c "0" 0 Hd). reflexivity.
Qed.

Lemma zero_padded_decimal_no_longer (w : nat) (n : Z) (s s' : string) :
  zero_padded_decimal w n s → zero_padded_decimal w n s' →
  (String.length s' ≤ String.length s)%nat.
Proof.
  intros (Hv & Hl & Hz) (Hv' & Hl' & Hz').
  destruct (decide (String.length s' ≤ String.length s)%nat) as [|Hgt];
    [assumption|exfalso].
  assert (Hlong : (Nat.max 1 w < String.length s')%nat) by lia.
  specialize (Hz' Hlong). destruct s' as [|c s']; [simpl in Hlong; lia|].
  simpl in Hz'. apply Hz'.
  apply (leading_zero_of_small c s' n Hv').
  destruct (decimal_from_bounds _ _ _ Hv) as (r & Hr & ->).
  simpl in Hgt.
  assert (Hle : Z.of_nat (String.length s) ≤ Z.of_nat (String.length s'))
    by lia.
  pose proof (Z.pow_le_mono_r 10 _ _ ltac:(lia) Hle). lia.
Qed.

(** There is one zero-padded rendering of a number at a width. *)
Lemma zero_padded_decimal_unique (w : nat) (n : Z) (s s' : string) :
  zero_padded_decimal w n s → zero_padded_decimal w n s' → s = s'.
Proof.
  intros H H'.
  pose proof (zero_padded_decimal_no_longer w n s s' H H').
  pose proof (zero_padded_decimal_no_longer w n s' s H' H).
  destruct H as (Hv & _), H' as (Hv' & _).
  apply (decimal_from_inj s s' 0 n); [lia|assumption|assumption].
Qed.

Lemma decimal_value_not_negative (s : string) (n : Z) :
  decimal_value s = Some n → 0 ≤ n.
Proof.
  intros H. destruct (decimal_from_bounds s 0 n H) as (r & Hr & ->). lia.
Qed.

(** C5, as stated, fails on a negative field.  For an instant of the year
    -1 and the line number -42, [formatHeader] writes the year and the
    line as [uint(i)], on twenty digits that denote 2^64 - 1 and
    2^64 - 42; no string is the decimal rendering of -1 or -42 in digits,
    so the header is not the year zero-padded to width 4 followed by the
    rest. *)
Lemma formatHeader_of_negative_fields :
  formatHeader "" instant_before_year_0 "pkg/mod.go" (-42) "INFO" =
    Some ("18446744073709551615-03-05T07:08:09 [INFO] " +:+
          "pkg/mod.go:18446744073709551574: ") ∧
  decimal_value "18446744073709551615" = Some (2 ^ 64 - 1) ∧
  decimal_value "18446744073709551574" = Some (2 ^ 64 - 42) ∧
  ¬ (∃ yyyy mo dd hh mi ss ln,
       zero_padded_decimal 4 (-1) yyyy ∧ zero_padded_decimal 2 3 mo ∧
       zero_padded_decimal 2 5 dd ∧ zero_padded_decimal 2 7 hh ∧
       zero_padded_decimal 2 8 mi ∧ zero_padded_decimal 2 9 ss ∧
       zero_padded_decimal 1 (-42) ln ∧
       formatHeader "" instant_before_year_0 "pkg/mod.go" (-42) "INFO" =
         Some ("" +:+ yyyy +:+ "-" +:+ mo +:+ "-" +:+ dd +:+ "T" +:+
               hh +:+ ":" +:+ mi +:+ ":" +:+ ss +:+
               " [" +:+ "INFO" +:+ "] " +:+ "pkg/mod.go" +:+ ":" +:+
               ln +:+ ": ")).
Proof.
  split; [vm_compute; reflexivity|].
  split; [vm_compute; reflexivity|].
  split; [vm_compute; reflexivity|].
  intros (yyyy & mo & dd & hh & mi & ss & ln & (Hy & _) & _).
  apply decimal_value_not_negative in Hy. lia.
Qed.

(** C5, amended: for an instant and a line number whose fields are not
    negative,
    [formatHeader] appends to the buffer exactly: the year zero-padded to
    width 4, [-], the month to width 2, [-], the day to width 2, [T], the
    hour, [:], the minute, [:], the second, each to width 2, a space, the
    level between square brackets, a space, the file, a colon, the line
    number in decimal at its minimum width, a colon and a space.  At
    2024-03-05T07:08:09, INFO, pkg/mod.go, 42 this is the header the
    specification gives (the witness below). *)
Theorem formatHeader_layout (b : string) (now : Time) (file : string)
    (line : Z) (lvl : string) (yyyy mo dd hh mi ss ln : string) :
  natural_int (year now) → natural_int (month now) →
  natural_int (day now) → natural_int (hour now) →
  natural_int (minute now) → natural_int (second now) →
  natural_int line →
  zero_padded_decimal 4 (year now) yyyy →
  zero_padded_decimal 2 (month now) mo →
  zero_padded_decimal 2 (day now) dd →
  zero_padded_decimal 2 (hour now) hh →
  zero_padded_decimal 2 (minute now) mi →
  zero_padded_decimal 2 (second now) ss →
  zero_padded_decimal 1 line ln →
  formatHeader b now file line lvl =
    Some (b +:+ yyyy +:+ "-" +:+ mo +:+ "-" +:+ dd +:+ "T" +:+
          hh +:+ ":" +:+ mi +:+ ":" +:+ ss +:+
          " [" +:+ lvl +:+ "] " +:+ file +:+ ":" +:+ ln +:+ ": ").
Proof.
  intros Hy Hmo Hd Hh Hmi Hs Hl Zy Zmo Zd Zh Zmi Zs Zl.
  rewrite formatHeader_appends. unfold header_text, timestamp.
  rewrite (zero_padded_decimal_unique _ _ _ _ Zy
             (decimal_zero_padded _ 4 Hy fits_array_4)).
  rewrite (zero_padded_decimal_unique _ _ _ _ Zmo
             (decimal_zero_padded _ 2 Hmo fits_array_2)).
  rewrite (zero_padded_decimal_unique _ _ _ _ Zd
             (decimal_zero_padded _ 2 Hd fits_array_2)).
  rewrite (zero_padded_decimal_unique _ _ _ _ Zh
             (decimal_zero_padded _ 2 Hh fits_array_2)).
  rewrite (zero_padded_decimal_unique _ _ _ _ Zmi
             (decimal_zero_padded _ 2 Hmi fits_array_2)).
  rewrite (zero_padded_decimal_unique _ _ _ _ Zs
             (decimal_zero_padded _ 2 Hs fits_array_2)).
  rewrite (zero_padded_decimal_unique _ _ _ _ Zl
             (decimal_zero_padded _ (-1) Hl fits_array_m1)).
  rewrite !app_assoc_str. reflexivity.
Qed.

Lemma zero_padded_decimal_literal (w : nat) (n : Z) (s : string) :
  decimal_value s = Some n →
  (Nat.max 1 w =? String.length s)%nat = true →
  zero_padded_decimal w n s.
Proof.
  intros Hv Hl. apply Nat.eqb_eq in Hl.
  split; [exact Hv|]. split; lia.
Qed.

Lemma formatHeader_layout_witness :
  formatHeader "" sample_instant "pkg/mod.go" 42 "INFO" =
    Some "2024-03-05T07:08:09 [INFO] pkg/mod.go:42: ".
Proof.
  apply (formatHeader_layout "" sample_instant "pkg/mod.go" 42 "INFO"
           "2024" "03" "05" "07" "08" "09" "42");
    try (unfold natural_int; simpl; lia);
    try (apply zero_padded_decimal_literal; reflexivity).
  split; [reflexivity|]. split; [simpl; lia|].
  intros _. discriminate.
Defined.

(** * Further properties of the package *)

(** ** Thresholds *)

(** X1: the thresholds nest.  Whatever the entry level, what the Error
    threshold lets through the Warn threshold lets through, what Warn lets
    through Info lets through, and the Debug threshold lets everything
    through: raising the threshold never lets more in. *)
Theorem thresholds_nest (e : string) :
  (includes ErrorLvl e = true → includes WarnLvl e = true) ∧
  (includes WarnLvl e = true → includes InfoLvl e = true) ∧
  (includes InfoLvl e = true → includes DebugLvl e = true).
Proof.
  rewrite includes_Error, includes_Warn, includes_Info.
  repeat split; tauto.
Qed.

Lemma thresholds_nest_witness :
  includes WarnLvl ErrorLvl = true ∧ includes InfoLvl ErrorLvl = true ∧
  includes DebugLvl ErrorLvl = true.
Proof.
  destruct (thresholds_nest ErrorLvl) as (H1 & H2 & H3).
  assert (Hw : includes WarnLvl ErrorLvl = true) by (apply H1; reflexivity).
  split; [exact Hw|]. split; [exact (H2 Hw)|exact (H3 (H2 Hw))].
Defined.

(** ** itoa *)

Lemma itoa_loop_overrun (bp : nat) : ∀ (u wid : Z) (b : string),
  Z.of_nat bp < wid < 2 ^ 63 → itoa_loop bp u wid b = None.
Proof.
  induction bp as [|bp IH]; intros u wid b Hw; simpl itoa_loop;
    replace (0 <? wid) with true by (symmetry; apply Z.ltb_lt; lia);
    rewrite orb_true_r; [reflexivity|].
  rewrite int_wrap_small by lia. apply IH. lia.
Qed.

(** X18: the 32-byte array of [itoa] bounds the width.  For a width that
    is an [int] above [-2^62+32], [itoa] indexes below its array (a
    run-time panic, [None]) exactly when the width is above 32, whatever
    the number. *)
Theorem itoa_runs_off_array_iff (b : string) (i wid : Z) :
  - 2 ^ 62 + 32 ≤ wid < 2 ^ 63 →
  (itoa b i wid = None ↔ 32 < wid).
Proof.
  intros Hw. split.
  - intros Hnone. destruct (decide (32 < wid)) as [|Hle]; [assumption|].
    rewrite itoa_decimal in Hnone by (unfold fits_array; lia).
    discriminate.
  - intros Hgt. unfold itoa.
    replace (wid <=? 1) with false by (symmetry; apply Z.leb_gt; lia).
    rewrite andb_false_r.
    rewrite (itoa_loop_overrun 32) by (simpl; lia). reflexivity.
Qed.

Lemma itoa_runs_off_array_iff_witness :
  (itoa "" 7 33 = None ↔ 32 < 33) ∧ (itoa "" 7 32 = None ↔ 32 < 32).
Proof.
  split; apply itoa_runs_off_array_iff; lia.
Defined.

(** The digits [itoa] appends are those of [uint(i)]. *)
Lemma decimal_renders_uint (i wid : Z) :
  fits_array wid → zero_padded_decimal (Z.to_nat wid) (uint i) (decimal i wid).
Proof.
  intros Hw. unfold decimal, itoa.
  pose proof (uint_range i) as Hu. set (u := uint i) in *.
  destruct ((u =? 0) && (wid <=? 1)) eqn:Hc.
  - apply andb_true_iff in Hc as [Hc1 Hc2].
    apply Z.eqb_eq in Hc1. apply Z.leb_le in Hc2. rewrite Hc1.
    split; [reflexivity|]. simpl. split; lia.
  - destruct (itoa_loop_spec 32 u wid "") as (r & Hr & Hv & Hl & Hz & Hne).
    + lia.
    + exact Hu.
    + unfold fits_array in Hw. lia.
    + rewrite Hr. simpl. rewrite app_empty_r.
      assert (Hpos : 0 < u ∨ 1 < wid).
      { apply andb_false_iff in Hc as [Hc|Hc];
          [apply Z.eqb_neq in Hc|apply Z.leb_gt in Hc]; lia. }
      assert (Hr0 : r ≠ "") by (apply Hne; lia).
      split; [exact Hv|].
      clear Hr. destruct r as [|c r]; [congruence|].
      simpl in Hl, Hz |- *.
      split; [lia|]. intros Hlt. apply Hz. lia.
Qed.

(** X19: reading back what [itoa] appends.  For an [int] [i] and a width
    the array allows, [itoa] appends decimal digits only, and the number
    they denote is [i] when [i] is not negative and [i + 2^64] when it is:
    no sign is ever written. *)
Theorem itoa_digits_read_back (b : string) (i wid : Z) :
  - 2 ^ 63 ≤ i < 2 ^ 63 → fits_array wid →
  ∃ d, itoa b i wid = Some (b +:+ d) ∧
       decimal_value d = Some (if i <? 0 then i + 2 ^ 64 else i).
Proof.
  intros Hi Hw. exists (decimal i wid).
  split; [apply itoa_decimal; exact Hw|].
  destruct (decimal_renders_uint i wid Hw) as (Hv & _). rewrite Hv.
  f_equal. unfold uint. destruct (i <? 0) eqn:Hneg.
  - apply Z.ltb_lt in Hneg.
    rewrite <- (Z.mod_add i 1 (2 ^ 64)) by lia. apply Z.mod_small. lia.
  - apply Z.ltb_ge in Hneg. apply Z.mod_small. lia.
Qed.

Lemma itoa_digits_read_back_witness :
  ∃ d, itoa "line " (-1) (-1) = Some ("line " +:+ d) ∧
       decimal_value d = Some 18446744073709551615.
Proof.
  apply (itoa_digits_read_back "line " (-1) (-1)).
  - lia.
  - unfold fits_array. lia.
Defined.

(** ** The width of the timestamp *)

Lemma zero_padded_exact_width (w : nat) (n : Z) (s : string) :
  (1 ≤ w)%nat → n < 10 ^ Z.of_nat w → zero_padded_decimal w n s →
  String.length s = w.
Proof.
  intros Hw Hn (Hv & Hl & Hz).
  destruct (decide (String.length s ≤ w)%nat) as [Hle|Hgt]; [lia|exfalso].
  assert (Hlong : (Nat.max 1 w < String.length s)%nat) by lia.
  specialize (Hz Hlong). destruct s as [|c s]; [simpl in Hlong; lia|].
  simpl in Hz. apply Hz. apply (leading_zero_of_small c s n Hv).
  simpl in Hgt.
  assert (Hle : Z.of_nat w ≤ Z.of_nat (String.length s)) by lia.
  pose proof (Z.pow_le_mono_r 10 _ _ ltac:(lia) Hle). lia.
Qed.

(** X20: for a year from 0 to 9999 and month, day, hour, minute and second
    from 0 to 99, the header [formatHeader] appends starts with a
    timestamp of exactly 19 bytes, so that the bracket of the level is
    always at the same column. *)
Theorem header_timestamp_is_19_bytes (b : string) (now : Time)
    (file : string) (line : Z) (lvl : string) :
  0 ≤ year now ≤ 9999 → 0 ≤ month now ≤ 99 → 0 ≤ day now ≤ 99 →
  0 ≤ hour now ≤ 99 → 0 ≤ minute now ≤ 99 → 0 ≤ second now ≤ 99 →
  ∃ ts rest,
    formatHeader b now file line lvl = Some (b +:+ ts +:+ " [" +:+ rest) ∧
    String.length ts = 19%nat.
Proof.
  intros Hy Hmo Hd Hh Hmi Hs.
  exists (timestamp now),
    (lvl +:+ "] " +:+ file +:+ ":" +:+ decimal line (-1) +:+ ": ").
  split; [rewrite formatHeader_appends; reflexivity|].
  assert (Hfour : ∀ n, 0 ≤ n ≤ 9999 → String.length (decimal n 4) = 4%nat).
  { intros n Hn. apply (zero_padded_exact_width 4 n); [lia|simpl; lia|].
    apply (decimal_zero_padded n 4); [lia|exact fits_array_4]. }
  assert (Htwo : ∀ n, 0 ≤ n ≤ 99 → String.length (decimal n 2) = 2%nat).
  { intros n Hn. apply (zero_padded_exact_width 2 n); [lia|simpl; lia|].
    apply (decimal_zero_padded n 2); [lia|exact fits_array_2]. }
  unfold timestamp. rewrite !length_app_str.
  rewrite (Hfour _ Hy), (Htwo _ Hmo), (Htwo _ Hd), (Htwo _ Hh),
    (Htwo _ Hmi), (Htwo _ Hs).
  reflexivity.
Qed.

Lemma header_timestamp_is_19_bytes_witness :
  ∃ ts rest,
    formatHeader "" sample_instant "pkg/mod.go" 42 "INFO"
      = Some ("" +:+ ts +:+ " [" +:+ rest) ∧
    String.length ts = 19%nat.
Proof.
  apply (header_timestamp_is_19_bytes "" sample_instant "pkg/mod.go" 42
           "INFO"); simpl; lia.
Defined.

(** ** One log call *)

Lemma includes_Error_entry (l : string) : includes l ErrorLvl = true.
Proof.
  unfold includes.
  destruct (String.eqb l InfoLvl); [reflexivity|].
  destruct (String.eqb l WarnLvl); [reflexivity|].
  destruct (String.eqb l ErrorLvl); reflexivity.
Qed.

Lemma reported_trace (rt : Runtime) (o : Writer) (line : string) (w : World) :
  ∃ rest,
    trace (reported rt o line w) = trace w ++ EvWrite (writer_id o) line :: rest ∧
    (Write_err o (trace w) line = None → rest = []) ∧
    Forall (log_event (Some o)) (EvWrite (writer_id o) line :: rest) ∧
    (length rest ≤ 1)%nat.
Proof.
  unfold reported. destruct (Write_err o (trace w) line) as [e|]; simpl.
  - eexists [_]. rewrite <- app_assoc. split; [reflexivity|].
    split; [discriminate|]. split; [|simpl; lia].
    repeat constructor.
  - exists []. split; [reflexivity|]. split; [reflexivity|].
    split; [|simpl; lia]. repeat constructor.
Qed.

(** X2: an Error or Errorf call is never filtered.  Whatever the
    threshold, one of the four or any other string, on a Logger with a sink
    and its mutex free the call returns and the next thing in the trace is
    the write of its line to that sink. *)
Theorem Error_is_never_filtered (rt : Runtime) (l : Logger) (o : Writer)
    (c : Call rt) (w : World) :
  out l = Some o → severity rt c = ErrorLvl → lock l ∉ held w →
  ∃ w' rest,
    invoke rt l c w = Ret () w' ∧
    trace w' = trace w ++ EvWrite (writer_id o) (line_of rt l c w) :: rest.
Proof.
  intros Ho Hsev Hfree.
  destruct (reported_trace rt o (line_of rt l c w) w) as (rest & Ht & _).
  exists (reported rt o (line_of rt l c w) w), rest.
  split; [|exact Ht].
  apply invoke_admitted; [exact Ho| |exact Hfree].
  rewrite Hsev. apply includes_Error_entry.
Qed.

Lemma Error_is_never_filtered_witness :
  ∃ w' rest,
    invoke sample_runtime (set_level "QUIET" sample_logger)
      (CallErrorf sample_runtime "down" []) idle_world = Ret () w' ∧
    trace w' =
      EvWrite 1%nat ("2024-03-05T07:08:09 [QUIET] pkg/mod.go:42: down" +:+ LF)
      :: rest.
Proof.
  apply (Error_is_never_filtered sample_runtime
           (set_level "QUIET" sample_logger) sample_sink
           (CallErrorf sample_runtime "down" []) idle_world).
  - reflexivity.
  - reflexivity.
  - apply idle_world_free.
Defined.





(** With its mutex held, a log call blocks on it and nothing has
    happened; with its mutex free, the call returns, the mutex is free
    again, and no mutex or raven client has been allocated. *)
Lemma log_call_blocks_or_returns (rt : Runtime) (l : Logger) (c : Call rt)
    (w : World) :
  ((lock l ∈ held w) ∧ invoke rt l c w = Blocked w) ∨
  ((lock l ∉ held w) ∧
   ∃ w', invoke rt l c w = Ret () w' ∧ held w' = held w ∧
         next_mutex w' = next_mutex w ∧ next_client w' = next_client w).
Proof.
  destruct (decide (lock l ∈ held w)) as [Hheld|Hfree].
  { left. split; [exact Hheld|apply invoke_blocked; exact Hheld]. }
  right. split; [exact Hfree|].
  destruct (out l) as [o|] eqn:Ho.
  - destruct (includes (level l) (severity rt c)) eqn:Hinc.
    + exists (reported rt o (line_of rt l c w) w).
      split; [apply invoke_admitted; assumption|].
      split; [apply reported_held|].
      unfold reported.
      destruct (Write_err o (trace w) _); split; reflexivity.
    + exists w. split; [apply invoke_filtered; assumption|].
      repeat split; reflexivity.
  - exists w. split; [apply invoke_nil_sink; assumption|].
    repeat split; reflexivity.
Qed.

(** X5: how a log call ends is decided by the mutex.  On a Logger value
    whose mutex pointer is nil, as in [Logger{}], the call panics in
    [Lock] with nothing done.  With the mutex allocated and held, it
    blocks with nothing done.  With the mutex allocated and free, and a
    sink whose [Write] returns, the call returns, the mutex is free again
    and no mutex or raven client has been allocated. *)
Theorem log_call_outcomes (rt : Runtime) (s : LoggerStruct) (c : Call rt)
    (w : World) :
  match struct_lock s with
  | None => call rt s c w = Panic nil_dereference w
  | Some m =>
      ((m ∈ held w) ∧ call rt s c w = Blocked w) ∨
      ((m ∉ held w) ∧
       ∃ w', call rt s c w = Ret () w' ∧ held w' = held w ∧
             next_mutex w' = next_mutex w ∧ next_client w' = next_client w)
  end.
Proof.
  unfold call, allocated. destruct (struct_lock s) as [m|]; [|reflexivity].
  apply (log_call_blocks_or_returns rt
           {| level := struct_level s; out := struct_out s;
              sentry := struct_sentry s; calldepth := struct_calldepth s;
              buf := struct_buf s; lock := m |} c w).
Qed.

(** X6: what a log call leaves in the trace.  However it ends, a log call
    adds at most two events, each a write to the Logger's own sink or a
    write to standard error: it never closes the sink, and never builds,
    releases or reports to a raven client. *)
Theorem log_call_events (rt : Runtime) (l : Logger) (c : Call rt) (w : World) :
  ∃ added,
    trace (world_of (invoke rt l c w)) = trace w ++ added ∧
    Forall (log_event (out l)) added ∧ (length added ≤ 2)%nat.
Proof.
  destruct (decide (lock l ∈ held w)) as [Hheld|Hfree].
  { exists []. rewrite invoke_blocked by exact Hheld. simpl.
    rewrite app_nil_r. repeat split; [constructor|lia]. }
  destruct (out l) as [o|] eqn:Ho.
  - destruct (includes (level l) (severity rt c)) eqn:Hinc.
    + rewrite (invoke_admitted rt l o c w Ho Hinc Hfree). simpl.
      destruct (reported_trace rt o (line_of rt l c w) w)
        as (rest & Ht & _ & Hall & Hlen).
      exists (EvWrite (writer_id o) (line_of rt l c w) :: rest).
      split; [exact Ht|]. split; [exact Hall|simpl; lia].
    + exists []. rewrite (invoke_filtered rt l c w Hinc Hfree). simpl.
      rewrite app_nil_r. repeat split; [constructor|lia].
  - exists []. rewrite (invoke_nil_sink rt l c w Ho Hfree). simpl.
    rewrite app_nil_r. repeat split; [constructor|lia].
Qed.

(** X21: two calls in a row, each made from its own place.  The two
    calls run on two stacks, so [runtime.Caller] answers each of them on
    its own.  When both are let through, on a Logger whose sink takes both
    writes, they leave their two lines in the trace in the order of the
    calls, each with the location of its own stack, the second stamped
    with the instant of the second reading of the clock. *)
Theorem two_calls_write_in_order (rt : Runtime) (l : Logger) (o : Writer)
    (frames1 frames2 : Z → string * Z * bool)
    (c1 : Call (on_stack frames1 rt)) (c2 : Call (on_stack frames2 rt))
    (w : World) :
  out l = Some o →
  includes (level l) (severity (on_stack frames1 rt) c1) = true →
  includes (level l) (severity (on_stack frames2 rt) c2) = true →
  lock l ∉ held w →
  let line1 := line_of (on_stack frames1 rt) l c1 w in
  let line2 :=
    line_of (on_stack frames2 rt) l c2 (set_clock (S (clock w)) w) in
  Write_err o (trace w) line1 = None →
  Write_err o (trace w ++ [EvWrite (writer_id o) line1]) line2 = None →
  ∃ w', (invoke (on_stack frames1 rt) l c1;;
         invoke (on_stack frames2 rt) l c2) w = Ret () w' ∧
        trace w' =
          trace w ++
          [EvWrite (writer_id o) line1; EvWrite (writer_id o) line2] ∧
        clock w' = S (S (clock w)) ∧ held w' = held w.
Proof.
  intros Ho H1 H2 Hfree line1 line2 Hok1 Hok2.
  unfold mbind, M_bind, bindM.
  rewrite (invoke_admitted (on_stack frames1 rt) l o c1 w Ho H1 Hfree).
  fold line1. unfold reported at 1. rewrite Hok1.
  rewrite (invoke_admitted (on_stack frames2 rt) l o c2 (written o line1 w)
             Ho H2 Hfree).
  change (line_of (on_stack frames2 rt) l c2 (written o line1 w)) with line2.
  unfold reported. simpl trace. rewrite Hok2.
  eexists. split; [reflexivity|]. simpl. rewrite <- app_assoc.
  repeat split; reflexivity.
Qed.

Lemma two_calls_write_in_order_witness :
  let in_Warn :=
    on_stack (λ _, ("logging/log.go", 262, true)) sample_runtime in
  let in_Error :=
    on_stack (λ _, ("logging/log.go", 297, true)) sample_runtime in
  ∃ w', (invoke in_Warn sample_logger (CallWarn in_Warn ["one"]);;
         invoke in_Error sample_logger (CallError in_Error ["two"]))
          idle_world = Ret () w' ∧
        trace w' =
          [EvWrite 1%nat
             ("2024-03-05T07:08:09 [INFO] logging/log.go:262: one" +:+ LF);
           EvWrite 1%nat
             ("2024-03-05T07:08:09 [INFO] logging/log.go:297: two" +:+ LF)] ∧
        clock w' = 2%nat ∧ held w' = ∅.
Proof.
  intros in_Warn in_Error.
  apply (two_calls_write_in_order sample_runtime sample_logger sample_sink
           (λ _, ("logging/log.go", 262, true))
           (λ _, ("logging/log.go", 297, true))
           (CallWarn in_Warn ["one"]) (CallError in_Error ["two"])
           idle_world).
  - reflexivity.
  - reflexivity.
  - reflexivity.
  - apply idle_world_free.
  - reflexivity.
  - reflexivity.
Defined.

(** ** The output path on its own *)

(** X7: [output] expects the mutex held.  Called with the Logger's mutex
    free, it reads the clock and then ends the process in [Unlock]: the
    unlock of an unlocked mutex is a fatal error of the runtime, which
    no deferred call sees and which cannot be recovered; nothing is
    written. *)
Theorem output_without_mutex_is_fatal (rt : Runtime) (l : Logger) (depth : Z)
    (s : string) (w : World) :
  lock l ∉ held w →
  output rt l depth s w =
    Fatal "fatal error: sync: unlock of unlocked mutex"
      (set_clock (S (clock w)) w).
Proof.
  intros Hfree. unfold output, mbind, M_bind, bindM, time_Now, Unlock.
  simpl held. rewrite decide_False by exact Hfree. reflexivity.
Qed.

Lemma output_without_mutex_is_fatal_witness :
  output sample_runtime sample_logger 2 "late" idle_world =
    Fatal "fatal error: sync: unlock of unlocked mutex"
      (set_clock 1%nat idle_world).
Proof.
  apply (output_without_mutex_is_fatal sample_runtime sample_logger 2 "late"
           idle_world).
  apply idle_world_free.
Defined.

(** X8: [output] does not test the sink.  On a Logger whose sink is nil,
    with the mutex held, it composes the line and panics on the nil
    interface at the write; the mutex is held again at that point and
    nothing has been written. *)
Theorem output_on_nil_sink_panics (rt : Runtime) (l : Logger) (depth : Z)
    (s : string) (w : World) :
  out l = None → lock l ∈ held w →
  output rt l depth s w = Panic nil_dereference (set_clock (S (clock w)) w).
Proof.
  intros Ho Hheld. unfold output, mbind, M_bind, bindM, time_Now.
  rewrite Unlock_held by exact Hheld.
  destruct (Caller rt depth) as [[file ln] ok].
  set (loc := if ok then (file, ln) else ("???", 0)).
  destruct loc as [file' ln'].
  rewrite Lock_free by apply free_just_unlocked.
  rewrite formatHeader_appends.
  destruct (lacks_final_newline s); cbn [buf level out set_buf]; rewrite Ho;
    unfold panic, set_held, set_clock;
    cbn [trace held clock next_mutex next_client];
    rewrite held_after_relock by exact Hheld; reflexivity.
Qed.

Lemma output_on_nil_sink_panics_witness :
  output sample_runtime (set_out None sample_logger) 2 "lost"
    (set_held {[0%nat]} idle_world)
  = Panic nil_dereference
      (set_clock 1%nat (set_held {[0%nat]} idle_world)).
Proof.
  apply (output_on_nil_sink_panics sample_runtime
           (set_out None sample_logger) 2 "lost"
           (set_held {[0%nat]} idle_world)).
  - reflexivity.
  - simpl. apply elem_of_singleton. reflexivity.
Defined.

(** X9: the scratch buffer starts empty at every write.  Whatever the
    Logger's buffer holds on entry, [output] writes the same line, and the
    buffer it leaves is exactly the line written. *)
Theorem output_truncates_buffer (rt : Runtime) (l : Logger) (o : Writer)
    (depth : Z) (s b : string) (w : World) :
  out l = Some o → lock l ∈ held w →
  ∃ line l' err w',
    output rt (set_buf b l) depth s w = Ret (l', err) w' ∧
    output rt l depth s w = Ret (l', err) w' ∧
    buf l' = line ∧
    trace w' = trace w ++ [EvWrite (writer_id o) line].
Proof.
  intros Ho Hheld.
  pose proof (output_writes rt l o depth s w Ho Hheld) as H. simpl in H.
  eexists _, _, _, _.
  split; [exact H|]. split; [exact H|]. split; reflexivity.
Qed.

Lemma output_truncates_buffer_witness :
  ∃ line l' err w',
    output sample_runtime (set_buf "stale bytes" sample_logger) 2 "fresh"
      (set_held {[0%nat]} idle_world) = Ret (l', err) w' ∧
    output sample_runtime sample_logger 2 "fresh"
      (set_held {[0%nat]} idle_world) = Ret (l', err) w' ∧
    buf l' = line ∧
    trace w' = [EvWrite 1%nat line].
Proof.
  apply (output_truncates_buffer sample_runtime sample_logger sample_sink 2
           "fresh" "stale bytes" (set_held {[0%nat]} idle_world)).
  - reflexivity.
  - simpl. apply elem_of_singleton. reflexivity.
Defined.

(** ** Reconfiguration, then a log call *)

(** X10: [SetOutput(nil)] silences a Logger.  After it, a log call at any
    severity and threshold returns with the world as it was before the
    two calls. *)
Theorem SetOutput_nil_silences (rt : Runtime) (l : Logger) (c : Call rt)
    (w : World) :
  lock l ∉ held w →
  (l' ← SetOutput l None; invoke rt l' c) w = Ret () w.
Proof.
  intros Hfree. unfold mbind, M_bind, bindM, SetOutput.
  rewrite (critical_section_pure (lock l) (set_out None l) w Hfree).
  apply invoke_nil_sink; [reflexivity|exact Hfree].
Qed.

Lemma SetOutput_nil_silences_witness :
  (l' ← SetOutput sample_logger None;
   invoke sample_runtime l' (CallError sample_runtime ["unheard"])) idle_world
  = Ret () idle_world.
Proof.
  apply (SetOutput_nil_silences sample_runtime sample_logger
           (CallError sample_runtime ["unheard"]) idle_world).
  apply idle_world_free.
Defined.

(** X11: [SetOutput] redirects.  After [SetOutput(o')], a call that is
    let through writes its line to [o'], the line it would have written to
    the old sink, and nothing to the old sink. *)
Theorem SetOutput_redirects (rt : Runtime) (l : Logger) (o' : Writer)
    (c : Call rt) (w : World) :
  lock l ∉ held w → includes (level l) (severity rt c) = true →
  ∃ w' rest,
    (l' ← SetOutput l (Some o'); invoke rt l' c) w = Ret () w' ∧
    trace w' = trace w ++ EvWrite (writer_id o') (line_of rt l c w) :: rest ∧
    Forall (log_event (Some o')) rest.
Proof.
  intros Hfree Hinc. unfold mbind, M_bind, bindM, SetOutput.
  rewrite (critical_section_pure (lock l) (set_out (Some o') l) w Hfree).
  rewrite (invoke_admitted rt (set_out (Some o') l) o' c w eq_refl Hinc Hfree).
  destruct (reported_trace rt o' (line_of rt l c w) w)
    as (rest & Ht & _ & Hall & _).
  eexists _, rest. split; [reflexivity|]. split; [exact Ht|].
  inversion Hall; assumption.
Qed.

Lemma SetOutput_redirects_witness :
  ∃ w' rest,
    (l' ← SetOutput sample_logger (Some broken_sink);
     invoke sample_runtime l' (CallWarn sample_runtime ["moved"])) idle_world
      = Ret () w' ∧
    trace w' =
      EvWrite 2%nat
        ("2024-03-05T07:08:09 [INFO] pkg/mod.go:42: moved" +:+ LF) :: rest ∧
    Forall (log_event (Some broken_sink)) rest.
Proof.
  apply (SetOutput_redirects sample_runtime sample_logger broken_sink
           (CallWarn sample_runtime ["moved"]) idle_world).
  - apply idle_world_free.
  - reflexivity.
Defined.

(** X12: [SetLevel] decides the next call.  After [SetLevel(x)] on a
    Logger with a sink, a call is written when [x] lets its severity
    through, with [x] between the brackets of the header, and does nothing
    when [x] leaves it out. *)
Theorem SetLevel_decides_next_call (rt : Runtime) (l : Logger) (o : Writer)
    (x : string) (c : Call rt) (w : World) :
  out l = Some o → lock l ∉ held w →
  (l' ← SetLevel l x; invoke rt l' c) w =
    if includes x (severity rt c)
    then Ret () (reported rt o
                   (line_text (now_at rt (clock w))
                      (location rt (int_wrap (calldepth l + 2))) x
                      (rendered rt c)) w)
    else Ret () w.
Proof.
  intros Ho Hfree. unfold mbind, M_bind, bindM, SetLevel.
  rewrite (critical_section_pure (lock l) (set_level x l) w Hfree).
  destruct (includes x (severity rt c)) eqn:Hinc.
  - apply (invoke_admitted rt (set_level x l) o c w Ho Hinc Hfree).
  - apply (invoke_filtered rt (set_level x l) c w Hinc Hfree).
Qed.

Lemma SetLevel_decides_next_call_witness :
  (l' ← SetLevel sample_logger ErrorLvl;
   invoke sample_runtime l' (CallWarn sample_runtime ["quiet now"]))
    idle_world
  = Ret () idle_world.
Proof.
  apply (SetLevel_decides_next_call sample_runtime sample_logger sample_sink
           ErrorLvl (CallWarn sample_runtime ["quiet now"]) idle_world).
  - reflexivity.
  - apply idle_world_free.
Defined.

(** X13: [SetCallDepth] moves the frame looked up.  After
    [SetCallDepth(d)], for [d] that leaves [d + 2] an [int], a call that is
    let through asks [runtime.Caller] for the frame at depth [d + 2], and
    puts that frame's file and line in the header. *)
Theorem SetCallDepth_moves_the_frame (rt : Runtime) (l : Logger) (o : Writer)
    (d : Z) (c : Call rt) (w : World) :
  out l = Some o → includes (level l) (severity rt c) = true →
  lock l ∉ held w → - 2 ^ 63 ≤ d + 2 < 2 ^ 63 →
  (l' ← SetCallDepth l d; invoke rt l' c) w =
    Ret () (reported rt o
              (line_text (now_at rt (clock w)) (location rt (d + 2))
                 (level l) (rendered rt c)) w).
Proof.
  intros Ho Hinc Hfree Hd. unfold mbind, M_bind, bindM, SetCallDepth.
  rewrite (critical_section_pure (lock l) (set_calldepth d l) w Hfree).
  rewrite (invoke_admitted rt (set_calldepth d l) o c w Ho Hinc Hfree).
  unfold line_of. simpl calldepth. rewrite int_wrap_small by exact Hd.
  reflexivity.
Qed.

Lemma SetCallDepth_moves_the_frame_witness :
  (l' ← SetCallDepth sample_logger 7;
   invoke sample_runtime l' (CallInfo sample_runtime ["deep"])) idle_world
  = Ret () {| trace :=
                [EvWrite 1%nat
                   ("2024-03-05T07:08:09 [INFO] ???:0: deep" +:+ LF)];
              held := ∅; clock := 1%nat; next_mutex := 1%nat;
              next_client := 1%nat |}.
Proof.
  apply (SetCallDepth_moves_the_frame sample_runtime sample_logger
           sample_sink 7 (CallInfo sample_runtime ["deep"]) idle_world).
  - reflexivity.
  - reflexivity.
  - apply idle_world_free.
  - lia.
Defined.

(** ** Construction and release *)

Lemma New_result (rt : Runtime) (lvl : string) (o : option Writer)
    (dsn : string) (tags : gmap string string) (w : World) :
  ∃ k err t,
    New rt lvl o dsn tags w =
      Ret ({| level := lvl; out := o; sentry := k; calldepth := 0;
              buf := ""; lock := next_mutex w |}, err)
          {| trace := t; held := held w; clock := clock w;
             next_mutex := S (next_mutex w);
             next_client := match k with
                            | Some _ => S (next_client w)
                            | None => next_client w
                            end |} ∧
    (dsn = "" → k = None ∧ err = None ∧ t = trace w) ∧
    (dsn ≠ "" →
     k = (if (NewClient_result rt dsn tags).1 then Some (next_client w)
          else None) ∧
     err = (NewClient_result rt dsn tags).2 ∧
     t = trace w ++ [EvNewClient dsn tags k]).
Proof.
  unfold New, mbind, M_bind, bindM.
  destruct (String.eqb dsn "") eqn:Hd.
  - apply String.eqb_eq in Hd. exists None, None, (trace w).
    split; [reflexivity|]. split; [intros _; repeat split|congruence].
  - apply String.eqb_neq in Hd. unfold raven_NewClient.
    destruct (NewClient_result rt dsn tags) as [made err].
    destruct made.
    + exists (Some (next_client w)), err, (trace w ++ [EvNewClient dsn tags
                                                      (Some (next_client w))]).
      split; [reflexivity|]. split; [congruence|intros _; repeat split].
    + exists None, err, (trace w ++ [EvNewClient dsn tags None]).
      split; [reflexivity|]. split; [congruence|intros _; repeat split].
Qed.

(** X14: [New] always hands back a Logger that can log.  In a world where
    every mutex held has been allocated, [New] returns a Logger with the
    level and sink asked for, call depth 0 and a new mutex that is free,
    also when it returns an error; without a DSN it builds no raven
    client and returns no error, with one the error is that of
    [raven.NewClient]. *)
Theorem New_gives_usable_Logger (rt : Runtime) (lvl : string)
    (o : option Writer) (dsn : string) (tags : gmap string string)
    (w : World) :
  mutexes_allocated w →
  ∃ l err w',
    New rt lvl o dsn tags w = Ret (l, err) w' ∧
    level l = lvl ∧ out l = o ∧ calldepth l = 0 ∧
    (lock l ∉ held w') ∧ mutexes_allocated w' ∧
    (dsn = "" → sentry l = None ∧ err = None ∧ trace w' = trace w) ∧
    (dsn ≠ "" → err = (NewClient_result rt dsn tags).2).
Proof.
  intros Hwf.
  destruct (New_result rt lvl o dsn tags w) as (k & err & t & HNew & H0 & H1).
  eexists _, _, _. split; [exact HNew|]. simpl.
  split; [reflexivity|]. split; [reflexivity|]. split; [reflexivity|].
  split; [intros Hin; specialize (Hwf _ Hin); lia|].
  split; [intros m Hm; specialize (Hwf m Hm); simpl; lia|].
  split; [exact H0|]. intros Hd. apply (H1 Hd).
Qed.

Lemma idle_world_allocated : mutexes_allocated idle_world.
Proof. intros m Hm. exfalso. exact (idle_world_free m Hm). Qed.

Lemma New_gives_usable_Logger_witness :
  ∃ l err w',
    New sample_runtime WarnLvl (Some sample_sink) "not a dsn" ∅ idle_world
      = Ret (l, err) w' ∧
    level l = WarnLvl ∧ out l = Some sample_sink ∧ calldepth l = 0 ∧
    (lock l ∉ held w') ∧ mutexes_allocated w' ∧
    ("not a dsn" = "" → sentry l = None ∧ err = None ∧ trace w' = []) ∧
    ("not a dsn" ≠ "" →
     err = Some "raven: dsn missing public key and/or private key").
Proof.
  apply (New_gives_usable_Logger sample_runtime WarnLvl (Some sample_sink)
           "not a dsn" ∅ idle_world).
  exact idle_world_allocated.
Defined.

(** X15: Loggers built one after the other do not share a mutex. *)
Theorem New_twice_separate_mutexes (rt : Runtime) (lvl1 lvl2 : string)
    (o1 o2 : option Writer) (dsn1 dsn2 : string)
    (tags1 tags2 : gmap string string) (w w1 w2 : World)
    (l1 l2 : Logger) (e1 e2 : option string) :
  New rt lvl1 o1 dsn1 tags1 w = Ret (l1, e1) w1 →
  New rt lvl2 o2 dsn2 tags2 w1 = Ret (l2, e2) w2 →
  lock l1 ≠ lock l2.
Proof.
  intros H1 H2.
  destruct (New_result rt lvl1 o1 dsn1 tags1 w) as (k1 & e1' & t1 & E1 & _).
  destruct (New_result rt lvl2 o2 dsn2 tags2 w1) as (k2 & e2' & t2 & E2 & _).
  rewrite E1 in H1. rewrite E2 in H2.
  injection H1 as <- _ <-. injection H2 as <- _ _. simpl. lia.
Qed.

Lemma New_twice_separate_mutexes_witness :
  let la := {| level := InfoLvl; out := Some sample_sink; sentry := None;
               calldepth := 0; buf := ""; lock := 1%nat |} in
  let wa := set_next_mutex 2%nat idle_world in
  let lb := {| level := ErrorLvl; out := None; sentry := None;
               calldepth := 0; buf := ""; lock := 2%nat |} in
  let wb := set_next_mutex 3%nat wa in
  New sample_runtime InfoLvl (Some sample_sink) "" ∅ idle_world
    = Ret (la, None) wa ∧
  New sample_runtime ErrorLvl None "" ∅ wa = Ret (lb, None) wb ∧
  lock la ≠ lock lb.
Proof.
  intros la wa lb wb.
  assert (Ha : New sample_runtime InfoLvl (Some sample_sink) "" ∅ idle_world
               = Ret (la, None) wa) by reflexivity.
  assert (Hb : New sample_runtime ErrorLvl None "" ∅ wa = Ret (lb, None) wb)
    by reflexivity.
  split; [exact Ha|]. split; [exact Hb|].
  exact (New_twice_separate_mutexes sample_runtime InfoLvl ErrorLvl
           (Some sample_sink) None "" "" ∅ ∅ idle_world wa wb la lb None None
           Ha Hb).
Defined.

(** X16: [Close] on a Logger with a raven client.  It releases that client
    once, then closes the sink when the sink is an [io.Closer] and leaves
    any other sink, or none, alone; it takes no mutex, so it goes ahead
    whether the Logger's mutex is held or not. *)
Theorem Close_releases_client_then_sink (l : Logger) (k : nat) (w : World) :
  sentry l = Some k →
  ∃ w', Close l w = Ret () w' ∧
        released (trace w') = released (trace w) ++ [k] ∧
        trace w' =
          trace w ++ EvClientClose k ::
            match out l with
            | Some o =>
                if is_Closer o then [EvSinkClose (writer_id o)] else []
            | None => []
            end ∧
        held w' = held w.
Proof.
  intros Hk. rewrite (Close_with_client l k w Hk).
  eexists. split; [reflexivity|]. simpl.
  split; [|split; reflexivity].
  unfold released. rewrite omap_app. simpl.
  destruct (out l) as [o|]; [destruct (is_Closer o)|]; reflexivity.
Qed.

Lemma Close_releases_client_then_sink_witness :
  ∃ w', Close sample_logger (set_held {[0%nat]} idle_world) = Ret () w' ∧
        released (trace w') = [0%nat] ∧
        trace w' = [EvClientClose 0; EvSinkClose 1] ∧
        held w' = {[0%nat]}.
Proof.
  exact (Close_releases_client_then_sink sample_logger 0%nat
           (set_held {[0%nat]} idle_world) eq_refl).
Defined.

Lemma SetSentry_with_new_client (rt : Runtime) (l : Logger) (dsn : string)
    (tags : gmap string string) (w : World) :
  lock l ∉ held w → NewClient_result rt dsn tags = (true, None) →
  SetSentry rt l dsn tags w =
    Ret (set_sentry (Some (next_client w)) l, None)
        {| trace :=
             trace w ++ EvNewClient dsn tags (Some (next_client w)) ::
               match sentry l with
               | Some k => [EvClientClose k]
               | None => []
               end;
           held := held w; clock := clock w; next_mutex := next_mutex w;
           next_client := S (next_client w) |}.
Proof.
  intros Hfree Hnew. unfold SetSentry.
  set (w1 := set_held ({[lock l]} ∪ held w) w).
  assert (Hmk : raven_NewClient rt dsn tags w1 =
                Ret (Some (next_client w), None)
                    (set_trace
                       (trace w1 ++
                        [EvNewClient dsn tags (Some (next_client w))])
                       (set_next_client (S (next_client w1)) w1))).
  { unfold raven_NewClient. rewrite Hnew. reflexivity. }
  destruct (sentry l) as [k|] eqn:Hk.
  - rewrite (critical_section (lock l) _
               (set_sentry (Some (next_client w)) l, None) w
               (set_trace
                  (trace w ++
                   [EvNewClient dsn tags (Some (next_client w))] ++
                   [EvClientClose k])
                  (set_next_client (S (next_client w)) w1)) Hfree).
    + reflexivity.
    + unfold mbind, M_bind, bindM. fold w1. rewrite Hmk.
      unfold raven_Close, emit, mret, M_ret, retM. simpl.
      rewrite <- app_assoc. reflexivity.
    + reflexivity.
  - rewrite (critical_section (lock l) _
               (set_sentry (Some (next_client w)) l, None) w
               (set_trace
                  (trace w ++ [EvNewClient dsn tags (Some (next_client w))])
                  (set_next_client (S (next_client w)) w1)) Hfree).
    + reflexivity.
    + unfold mbind, M_bind, bindM. fold w1. rewrite Hmk. reflexivity.
    + reflexivity.
Qed.

(** X17: [SetSentry], then [Close].  When [raven.NewClient] makes a client
    and returns no error, [SetSentry] followed by [Close] returns, whether
    or not the Logger had a client before, and the clients released are
    the old one, if there was one, and then the new one, each once. *)
Theorem SetSentry_then_Close (rt : Runtime) (l : Logger) (dsn : string)
    (tags : gmap string string) (w : World) :
  lock l ∉ held w → NewClient_result rt dsn tags = (true, None) →
  ∃ w', (r ← SetSentry rt l dsn tags; Close r.1) w = Ret () w' ∧
        released (trace w') =
          released (trace w) ++
          match sentry l with Some k => [k] | None => [] end ++
          [next_client w] ∧
        held w' = held w.
Proof.
  intros Hfree Hnew.
  unfold mbind, M_bind, bindM.
  rewrite (SetSentry_with_new_client rt l dsn tags w Hfree Hnew). simpl fst.
  rewrite (Close_with_client (set_sentry (Some (next_client w)) l)
             (next_client w) _ eq_refl).
  eexists. split; [reflexivity|]. simpl. split; [|reflexivity].
  unfold released. rewrite !omap_app. simpl.
  destruct (sentry l); simpl; rewrite <- ?app_assoc;
    destruct (out l) as [o|]; [destruct (is_Closer o)| |destruct (is_Closer o)|];
    reflexivity.
Qed.

Lemma SetSentry_then_Close_witness :
  ∃ w', (r ← SetSentry sample_runtime sample_logger "https://key@host/1" ∅;
         Close r.1) idle_world = Ret () w' ∧
        released (trace w') = [0%nat; 1%nat] ∧
        held w' = ∅.
Proof.
  exact (SetSentry_then_Close sample_runtime sample_logger
           "https://key@host/1" ∅ idle_world (idle_world_free 0%nat)
           eq_refl).
Defined.

(** X22: a Logger on standard output closes standard output.  [os.Stdout]
    is an [*os.File], hence an [io.Closer]: [LogToStdout] with a DSN from
    which [raven.NewClient] makes a client, followed by [Close], builds
    the client, releases it, and closes [os.Stdout]. *)
Theorem LogToStdout_then_Close_closes_stdout (rt : Runtime)
    (os_Stdout : Writer) (lvl dsn : string) (tags : gmap string string)
    (w : World) :
  is_Closer os_Stdout = true → dsn ≠ "" →
  NewClient_result rt dsn tags = (true, None) →
  ∃ w', (r ← LogToStdout rt os_Stdout lvl dsn tags; Close r.1) w
          = Ret () w' ∧
        trace w' =
          trace w ++
          [EvNewClient dsn tags (Some (next_client w));
           EvClientClose (next_client w);
           EvSinkClose (writer_id os_Stdout)].
Proof.
  intros Hcl Hdsn Hnew. unfold LogToStdout.
  destruct (New_result rt lvl (Some os_Stdout) dsn tags w)
    as (k & err & t & HNew & _ & H1).
  destruct (H1 Hdsn) as (Hk & Herr & Ht). rewrite Hnew in Hk. simpl in Hk.
  subst k t.
  unfold mbind, M_bind, bindM. rewrite HNew. simpl fst.
  rewrite Close_with_client with (k := next_client w) by reflexivity.
  eexists. split; [reflexivity|]. simpl. rewrite Hcl.
  rewrite <- app_assoc. reflexivity.
Qed.

Lemma LogToStdout_then_Close_closes_stdout_witness :
  ∃ w', (r ← LogToStdout sample_runtime sample_sink InfoLvl
               "https://key@host/1" ∅;
         Close r.1) idle_world = Ret () w' ∧
        trace w' =
          [EvNewClient "https://key@host/1" ∅ (Some 1%nat);
           EvClientClose 1; EvSinkClose 1].
Proof.
  apply (LogToStdout_then_Close_closes_stdout sample_runtime sample_sink
           InfoLvl "https://key@host/1" ∅ idle_world).
  - reflexivity.
  - discriminate.
  - reflexivity.
Defined.

(** ** The configuration calls and the mutex *)

(** X23: [SetOutput] and [SetCallDepth] each change their own field and
    nothing else, and [GetLevel] changes nothing: with the mutex free they
    return in the world they were called in, and the Logger keeps its
    level, client, buffer and mutex. *)
Theorem configuration_calls_change_one_field (l : Logger)
    (o : option Writer) (d : Z) (w : World) :
  lock l ∉ held w →
  GetLevel l w = Ret (level l) w ∧
  (∃ l', SetOutput l o w = Ret l' w ∧ out l' = o ∧
         level l' = level l ∧ sentry l' = sentry l ∧
         calldepth l' = calldepth l ∧ buf l' = buf l ∧ lock l' = lock l) ∧
  (∃ l', SetCallDepth l d w = Ret l' w ∧ calldepth l' = d ∧
         level l' = level l ∧ out l' = out l ∧ sentry l' = sentry l ∧
         buf l' = buf l ∧ lock l' = lock l).
Proof.
  intros Hfree.
  split; [apply (critical_section_pure (lock l) (level l) w Hfree)|].
  split.
  - exists (set_out o l).
    split; [apply (critical_section_pure (lock l) _ w Hfree)|].
    repeat split; reflexivity.
  - exists (set_calldepth d l).
    split; [apply (critical_section_pure (lock l) _ w Hfree)|].
    repeat split; reflexivity.
Qed.

Lemma configuration_calls_change_one_field_witness :
  GetLevel sample_logger idle_world = Ret InfoLvl idle_world ∧
  (∃ l', SetOutput sample_logger (Some broken_sink) idle_world
           = Ret l' idle_world ∧ out l' = Some broken_sink ∧
         level l' = InfoLvl ∧ sentry l' = Some 0%nat ∧
         calldepth l' = 0 ∧ buf l' = "" ∧ lock l' = 0%nat) ∧
  (∃ l', SetCallDepth sample_logger 3 idle_world = Ret l' idle_world ∧
         calldepth l' = 3 ∧
         level l' = InfoLvl ∧ out l' = Some sample_sink ∧
         sentry l' = Some 0%nat ∧ buf l' = "" ∧ lock l' = 0%nat).
Proof.
  apply (configuration_calls_change_one_field sample_logger
           (Some broken_sink) 3 idle_world).
  apply idle_world_free.
Defined.

Lemma critical_section_blocked {A} (m : nat) (body : M A) (w : World) :
  m ∈ held w → (Lock m;; defer (Unlock m) body) w = Blocked w.
Proof.
  intros Hheld. unfold mbind, M_bind, bindM.
  rewrite Lock_held by exact Hheld. reflexivity.
Qed.

(** X24: no configuration call goes ahead while the Logger's mutex is
    held.  [GetLevel], [SetLevel], [SetOutput], [SetCallDepth] and
    [SetSentry] block on it with nothing done; [SetSentry] in particular
    has not asked raven for a client. *)
Theorem configuration_calls_block_on_held_mutex (rt : Runtime) (l : Logger)
    (x : string) (o : option Writer) (d : Z) (dsn : string)
    (tags : gmap string string) (w : World) :
  lock l ∈ held w →
  GetLevel l w = Blocked w ∧ SetLevel l x w = Blocked w ∧
  SetOutput l o w = Blocked w ∧ SetCallDepth l d w = Blocked w ∧
  SetSentry rt l dsn tags w = Blocked w.
Proof.
  intros Hheld.
  repeat split; apply critical_section_blocked; exact Hheld.
Qed.

Lemma configuration_calls_block_on_held_mutex_witness :
  let w := set_held {[0%nat]} idle_world in
  GetLevel sample_logger w = Blocked w ∧
  SetLevel sample_logger DebugLvl w = Blocked w ∧
  SetOutput sample_logger None w = Blocked w ∧
  SetCallDepth sample_logger 1 w = Blocked w ∧
  SetSentry sample_runtime sample_logger "https://key@host/1" ∅ w
    = Blocked w.
Proof.
  apply (configuration_calls_block_on_held_mutex sample_runtime sample_logger
           DebugLvl None 1 "https://key@host/1" ∅
           (set_held {[0%nat]} idle_world)).
  simpl. apply elem_of_singleton. reflexivity.
Defined.
